(** * Grok API image generator: a shallow embedding of
      [grok_image_generator.py] and the properties of its specification.

    The script is sequential: it builds one HTTP POST, reads a URL out of the
    JSON answer, issues one HTTP GET, writes the bytes to a file named after
    the prompt, and loops over standard input.  Python values are modelled as
    they are at run time (text as sequences of code points, JSON as the
    objects [response.json()] builds), exceptions as an explicit outcome, and
    the outside world (standard input, network, file system, clock) as a state
    with an event trace and an oracle for what the libraries answer. *)

From Stdlib Require Import String Ascii List NArith ZArith Bool Lia.
Import ListNotations.

Set Implicit Arguments.
Set Warnings "-register-all".
Local Open Scope N_scope.

(** ** Text *)

(** A Python [str] is a sequence of Unicode code points. *)
Definition char := N.
Definition str := list char.

(** The code points of an ASCII literal of the source. *)
Definition lit (s : string) : str :=
  map N_of_ascii (list_ascii_of_string s).

Definition char_eqb (a b : char) : bool := N.eqb a b.

Fixpoint str_eqb (a b : str) : bool :=
  match a, b with
  | [], [] => true
  | x :: a', y :: b' => char_eqb x y && str_eqb a' b'
  | _, _ => false
  end.

Definition SPACE : char := 32.
Definition HYPHEN : char := 45.
Definition UNDERSCORE : char := 95.
Definition SLASH : char := 47.

Definition is_ascii (c : char) : bool := N.ltb c 128.

Definition ascii_isalnum (c : char) : bool :=
  (N.leb 48 c && N.leb c 57) || (N.leb 65 c && N.leb c 90)
  || (N.leb 97 c && N.leb c 122).

Definition ascii_isspace (c : char) : bool :=
  (N.leb 9 c && N.leb c 13) || (N.leb 28 c && N.leb c 32).

Definition ascii_lower (c : char) : char :=
  if N.leb 65 c && N.leb c 90 then c + 32 else c.

(** The Unicode tables behind [str.isalnum], [str.strip] and [str.lower] are
    those of the interpreter, not of the script: they are taken as an
    interface, with what they do on ASCII fixed. *)
Class Unicode := {
  isalnum : char -> bool;
  isspace : char -> bool;
  lower : str -> str;
  isalnum_ascii : forall c, is_ascii c = true -> isalnum c = ascii_isalnum c;
  isspace_ascii : forall c, is_ascii c = true -> isspace c = ascii_isspace c;
  lower_ascii : forall s, forallb is_ascii s = true -> lower s = map ascii_lower s
}.

(** The tables restricted to ASCII: every other code point is neither
    alphanumeric nor white space and has no lower case of its own. *)
#[refine] Instance ascii_tables : Unicode := {
  isalnum c := ascii_isalnum c;
  isspace c := ascii_isspace c;
  lower s := map ascii_lower s
}.
Proof. all: reflexivity. Defined.

Section Text.
Context {U : Unicode}.

Fixpoint lstrip (s : str) : str :=
  match s with
  | c :: s' => if isspace c then lstrip s' else s
  | [] => []
  end.

Definition rstrip (s : str) : str := rev (lstrip (rev s)).

(** [s.strip()] *)
Definition strip (s : str) : str := rstrip (lstrip s).

(** [s.replace(a, b)] for one-character [a] and [b]. *)
Definition replace (a b : char) (s : str) : str :=
  map (fun c => if char_eqb c a then b else c) s.

(** [c.isalnum() or c in (' ', '-', '_')] *)
Definition keep (c : char) : bool :=
  isalnum c || (char_eqb c SPACE || char_eqb c HYPHEN || char_eqb c UNDERSCORE).

(** Lines 85-86 of [download_image]. *)
Definition safe_prompt (prompt : str) : str :=
  let safe_prompt := strip (filter keep (firstn 50%nat prompt)) in
  replace SPACE UNDERSCORE safe_prompt.
End Text.

(** ** The clock *)

(** What [datetime.now()] returns. *)
Record datetime := {
  year : N; month : N; day : N;
  hour : N; minute : N; second : N
}.

(** The ranges a [datetime] of the interpreter keeps; below the year 1000 the
    width of [%Y] depends on the platform, so a current date is asked for. *)
Definition valid_datetime (d : datetime) : Prop :=
  1000 <= year d <= 9999 /\ 1 <= month d <= 12 /\ 1 <= day d <= 31 /\
  hour d < 24 /\ minute d < 60 /\ second d < 60.

Definition digit (n : N) : char := 48 + n mod 10.

Definition pad2 (n : N) : str := [digit (n / 10); digit n].

Definition pad4 (n : N) : str :=
  [digit (n / 1000); digit (n / 100); digit (n / 10); digit n].

(** [d.strftime("%Y%m%d_%H%M%S")] *)
Definition strftime (d : datetime) : str :=
  pad4 (year d) ++ pad2 (month d) ++ pad2 (day d) ++ [UNDERSCORE]
  ++ pad2 (hour d) ++ pad2 (minute d) ++ pad2 (second d).

Definition is_digit (c : char) : bool := N.leb 48 c && N.leb c 57.

(** The shape [YYYYMMDD_HHMMSS]: eight digits, an underscore, six digits. *)
Definition timestamp_shape (ts : str) : bool :=
  match ts with
  | [y1; y2; y3; y4; m1; m2; d1; d2; u; h1; h2; mi1; mi2; s1; s2] =>
      forallb is_digit [y1; y2; y3; y4; m1; m2; d1; d2]
      && char_eqb u UNDERSCORE
      && forallb is_digit [h1; h2; mi1; mi2; s1; s2]
  | _ => false
  end.

(** The number a run of decimal digits denotes. *)
Definition decimal (s : str) : N :=
  fold_left (fun acc c => 10 * acc + (c - 48)) s 0.

(** [s[a:b]] *)
Definition slice (a b : nat) (s : str) : str := firstn (b - a) (skipn a s).

(** The date and time a timestamp spells. *)
Definition read_timestamp (ts : str) : datetime :=
  {| year := decimal (slice 0 4 ts);
     month := decimal (slice 4 6 ts);
     day := decimal (slice 6 8 ts);
     hour := decimal (slice 9 11 ts);
     minute := decimal (slice 11 13 ts);
     second := decimal (slice 13 15 ts) |}.

(** ** Paths *)

Definition startswith (p s : str) : bool := str_eqb (firstn (length p) s) p.

Definition endswith (p s : str) : bool :=
  str_eqb (skipn (length s - length p) s) p && Nat.leb (length p) (length s).

(** [os.path.join(a, b)] of [posixpath]. *)
Definition path_join (a b : str) : str :=
  if startswith [SLASH] b then b
  else if (match a with [] => true | _ => false end) || endswith [SLASH] a
       then a ++ b
       else a ++ [SLASH] ++ b.

Section Filename.
Context {U : Unicode}.

(** Line 87 of [download_image]: [f"{timestamp}_{safe_prompt}.png"]. *)
Definition filename (now : datetime) (prompt : str) : str :=
  let timestamp := strftime now in
  timestamp ++ [UNDERSCORE] ++ safe_prompt prompt ++ lit ".png".
End Filename.

(** ** Python values *)

(** What [response.json()] builds; [JNull] is [None].  Of a float only its
    truth value is kept, which is all this program looks at. *)
Inductive json :=
| JNull
| JBool (b : bool)
| JInt (z : Z)
| JFloat (nonzero : bool)
| JStr (s : str)
| JArr (l : list json)
| JObj (kv : list (str * json)).

(** A key of a subscript: a dict of JSON has string keys, a list integer
    positions. *)
Inductive key := KStr (s : str) | KInt (z : Z).

Inductive exn :=
| RequestException (detail : str) (response_text : option str)
    (* requests.exceptions.RequestException and its subclasses; the text of
       the response it carries, when it carries one *)
| KeyError (k : key)
| TypeError
| IndexError
| EOFError
| OSError (detail : str)
| OtherException (detail : str).

Definition is_RequestException (e : exn) : bool :=
  match e with RequestException _ _ => true | _ => false end.

Inductive outcome (A : Type) :=
| Ok (a : A)
| Raise (e : exn).
Arguments Ok {A} a.
Arguments Raise {A} e.

(** [dict] lookup: the first binding of the key. *)
Fixpoint lookup (k : str) (kv : list (str * json)) : option json :=
  match kv with
  | [] => None
  | (k', v) :: kv' => if str_eqb k k' then Some v else lookup k kv'
  end.

(** [p in s] on strings: [p] occurs in [s]. *)
Fixpoint occurs (p s : str) : bool :=
  startswith p s || match s with [] => false | _ :: s' => occurs p s' end.

(** [bool(v)] *)
Definition truthy (v : json) : bool :=
  match v with
  | JNull => false
  | JBool b => b
  | JInt z => negb (Z.eqb z 0)
  | JFloat nz => nz
  | JStr s => match s with [] => false | _ => true end
  | JArr l => match l with [] => false | _ => true end
  | JObj kv => match kv with [] => false | _ => true end
  end.

(** [k in v] for a string [k] *)
Definition contains (k : str) (v : json) : outcome bool :=
  match v with
  | JObj kv => Ok (match lookup k kv with Some _ => true | None => false end)
  | JArr l =>
      Ok (existsb (fun x => match x with JStr s => str_eqb s k | _ => false end) l)
  | JStr s => Ok (occurs k s)
  | _ => Raise TypeError
  end.

(** [v[k]] for a string [k] *)
Definition getitem (v : json) (k : str) : outcome json :=
  match v with
  | JObj kv =>
      match lookup k kv with Some x => Ok x | None => Raise (KeyError (KStr k)) end
  | _ => Raise TypeError
  end.

(** [v[0]] *)
Definition getitem0 (v : json) : outcome json :=
  match v with
  | JArr (x :: _) => Ok x
  | JArr [] => Raise IndexError
  | JStr (c :: _) => Ok (JStr [c])
  | JStr [] => Raise IndexError
  | JObj _ => Raise (KeyError (KInt 0))
  | _ => Raise TypeError
  end.

(** [len(v)] *)
Definition len (v : json) : outcome nat :=
  match v with
  | JArr l => Ok (length l)
  | JStr s => Ok (length s)
  | JObj kv => Ok (length kv)
  | _ => Raise TypeError
  end.

(** ** The outside world *)

Definition bytes := list Byte.byte.

(** The [input(...)] calls of [main], by what they ask for. *)
Inductive question := QApiKey | QFolder | QPrompt | QCustom | QSize | QQuality | QStyle.

(** The [print(...)] calls of the script, by what they say. *)
Inductive message :=
| MFolderVerified (folder : str)
| MGenerating (prompt : str)
| MErrorGenerating (e : exn)
| MResponse (text : str)
| MDownloading
| MSaved (filepath : str)
| MErrorDownloading (e : exn)
| MNoImageUrl
| MRule | MTitle | MApiKeyRequired | MReady
| MOptions | MOptionSize | MOptionQuality | MOptionStyle
| MDashes
| MGoodbye (image_count : nat)
| MPromptEmpty
| MSuccess (image_count : nat)
| MFailed.

Inductive event :=
| EPrint (m : message)
| EInput (q : question) (line : option str)
| EMkdir (path : str)
| EPost (url : str) (headers : list (str * str)) (body : json)
| EGet (url : json)
| EWrite (path : str) (content : bytes)
| ESleep (seconds : N).

(** A [requests.Response]. *)
Record response := {
  status_code : Z;
  text : str;
  content : bytes;
  body_json : option json  (* what the body parses to, when it is JSON *)
}.

(** What the libraries answer, given everything that happened so far. *)
Record env := {
  http_post : list event -> str -> list (str * str) -> json -> outcome response;
  http_get : list event -> json -> outcome response;
  fs_mkdir : list event -> str -> option exn;
  fs_write : list event -> str -> bytes -> option exn;
  clock : list event -> datetime;
  json_error : exn  (* what [response.json()] raises on a body that is not JSON *)
}.

Record world := {
  stdin : list str;   (* the lines not read yet *)
  trace : list event  (* what happened so far, oldest first *)
}.

(** ** Computations: state and exceptions *)

Definition M (A : Type) := world -> outcome A * world.

Definition ret {A} (a : A) : M A := fun w => (Ok a, w).

Definition raise {A} (e : exn) : M A := fun w => (Raise e, w).

Definition bind {A B} (m : M A) (k : A -> M B) : M B :=
  fun w => match m w with
           | (Ok a, w') => k a w'
           | (Raise e, w') => (Raise e, w')
           end.

(** [try: m  except ...: h e] *)
Definition try_except {A} (m : M A) (h : exn -> M A) : M A :=
  fun w => match m w with
           | (Ok a, w') => (Ok a, w')
           | (Raise e, w') => h e w'
           end.

Definition lift {A} (o : outcome A) : M A := fun w => (o, w).

Declare Scope py_scope.
Delimit Scope py_scope with py.
Notation "x <- m ;; k" := (bind m (fun x => k))
  (at level 61, m at next level, right associativity) : py_scope.
Notation "m ;;; k" := (bind m (fun _ => k))
  (at level 61, right associativity) : py_scope.
Local Open Scope py_scope.

Definition emit (e : event) : M unit :=
  fun w => (Ok tt, {| stdin := stdin w; trace := trace w ++ [e] |}).

Definition print (m : message) : M unit := emit (EPrint m).

(** [input(q)]: the next line of standard input, [EOFError] at its end. *)
Definition input (q : question) : M str :=
  fun w => match stdin w with
           | line :: rest =>
               (Ok line, {| stdin := rest; trace := trace w ++ [EInput q (Some line)] |})
           | [] =>
               (Raise EOFError, {| stdin := []; trace := trace w ++ [EInput q None] |})
           end.

(** [time.sleep(n)] *)
Definition sleep (n : N) : M unit := emit (ESleep n).

Section Requests.
Variable E : env.

(** [requests.post(url, headers=headers, json=payload)] *)
Definition requests_post (url : str) (headers : list (str * str)) (payload : json)
  : M response :=
  fun w =>
    (http_post E (trace w) url headers payload,
     {| stdin := stdin w; trace := trace w ++ [EPost url headers payload] |}).

(** [requests.get(url)] *)
Definition requests_get (url : json) : M response :=
  fun w =>
    (http_get E (trace w) url,
     {| stdin := stdin w; trace := trace w ++ [EGet url] |}).

(** [response.raise_for_status()]: [HTTPError] on a 4xx or 5xx status. *)
Definition raise_for_status (r : response) : M unit :=
  if Z.leb 400 (status_code r) && Z.ltb (status_code r) 600
  then raise (RequestException (lit "HTTPError") (Some (text r)))
  else ret tt.

(** [response.json()] *)
Definition response_json (r : response) : M json :=
  match body_json r with
  | Some v => ret v
  | None => raise (json_error E)
  end.

(** [Path(path).mkdir(parents=True, exist_ok=True)] *)
Definition mkdir (path : str) : M unit :=
  fun w =>
    (match fs_mkdir E (trace w) path with Some e => Raise e | None => Ok tt end,
     {| stdin := stdin w; trace := trace w ++ [EMkdir path] |}).

(** [with open(path, 'wb') as f: f.write(content)] *)
Definition write_file (path : str) (content : bytes) : M unit :=
  fun w =>
    (match fs_write E (trace w) path content with Some e => Raise e | None => Ok tt end,
     {| stdin := stdin w; trace := trace w ++ [EWrite path content] |}).

(** [datetime.now()] *)
Definition datetime_now : M datetime := fun w => (Ok (clock E (trace w)), w).
End Requests.

(** ** class GrokImageGenerator *)

Record GrokImageGenerator := {
  api_key : str;
  download_folder : str;
  base_url : str
}.

(** The keyword arguments [generate_and_download] hands on to
    [generate_image]; an absent one takes the default of the signature. *)
Record kwargs := {
  kw_model : option str;
  kw_size : option str;
  kw_quality : option str;
  kw_style : option str
}.

Definition no_kwargs : kwargs :=
  {| kw_model := None; kw_size := None; kw_quality := None; kw_style := None |}.

Definition default (d : str) (o : option str) : str :=
  match o with Some s => s | None => d end.

Section Generator.
Context {U : Unicode}.
Variable E : env.

(** [__init__], lines 23-29. *)
Definition init (api_key download_folder : str) : M GrokImageGenerator :=
  let self := {| api_key := api_key;
                 download_folder := download_folder;
                 base_url := lit "https://x.com/i/grok" |} in
  mkdir E (download_folder) ;;;
  print (MFolderVerified download_folder) ;;;
  ret self.

Definition headers_of (self : GrokImageGenerator) : list (str * str) :=
  [ (lit "Authorization", lit "Bearer " ++ api_key self);
    (lit "Content-Type", lit "application/json") ].

Definition payload_of (prompt model size quality style : str) : json :=
  JObj [ (lit "model", JStr model);
         (lit "prompt", JStr prompt);
         (lit "n", JInt 1);
         (lit "size", JStr size);
         (lit "quality", JStr quality);
         (lit "style", JStr style) ].

(** [generate_image], lines 46-69. *)
Definition generate_image (self : GrokImageGenerator)
    (prompt model size quality style : str) : M json :=
  let headers := headers_of self in
  let payload := payload_of prompt model size quality style in
  try_except
    (print (MGenerating prompt) ;;;
     response <- requests_post E (base_url self) headers payload ;;
     raise_for_status response ;;;
     response_json E response)
    (fun e =>
       match e with
       | RequestException _ response_text =>
           print (MErrorGenerating e) ;;;
           match response_text with
           | Some t => print (MResponse t)
           | None => ret tt
           end ;;;
           ret JNull
       | _ => raise e
       end).

(** [download_image], lines 82-103. *)
Definition download_image (self : GrokImageGenerator) (image_url : json)
    (prompt : str) : M (option str) :=
  try_except
    (now <- datetime_now E ;;
     let filename := filename now prompt in
     let filepath := path_join (download_folder self) filename in
     print MDownloading ;;;
     img_response <- requests_get E image_url ;;
     raise_for_status img_response ;;;
     write_file E filepath (content img_response) ;;;
     print (MSaved filepath) ;;;
     ret (Some filepath))
    (fun e => print (MErrorDownloading e) ;;; ret None).

(** The test of line 118:
    [result and 'data' in result and len(result['data']) > 0]. *)
Definition has_images (result : json) : outcome bool :=
  if truthy result then
    match contains (lit "data") result with
    | Raise e => Raise e
    | Ok false => Ok false
    | Ok true =>
        match getitem result (lit "data") with
        | Raise e => Raise e
        | Ok data =>
            match len data with
            | Raise e => Raise e
            | Ok n => Ok (Nat.ltb 0 n)
            end
        end
    end
  else Ok false.

(** [self.generate_image(prompt, **kwargs)]: the call of line 116, with the
    defaults of the signature of [generate_image] for what is absent. *)
Definition generate_image_kw (self : GrokImageGenerator) (prompt : str)
    (kw : kwargs) : M json :=
  generate_image self prompt
    (default (lit "grok-2-vision-1212") (kw_model kw))
    (default (lit "1024x1024") (kw_size kw))
    (default (lit "medium") (kw_quality kw))
    (default (lit "natural") (kw_style kw)).

(** [generate_and_download], lines 116-123. *)
Definition generate_and_download (self : GrokImageGenerator) (prompt : str)
    (kw : kwargs) : M (option str) :=
  result <- generate_image_kw self prompt kw ;;
  found <- lift (has_images result) ;;
  if found then
    data <- lift (getitem result (lit "data")) ;;
    first <- lift (getitem0 data) ;;
    image_url <- lift (getitem first (lit "url")) ;;
    download_image self image_url prompt
  else
    print MNoImageUrl ;;;
    ret None.

(** ** main *)

Definition exit_keywords : list str := [lit "quit"; lit "exit"; lit "q"].

(** [s in l] on a list of strings. *)
Definition str_in (s : str) (l : list str) : bool := existsb (str_eqb s) l.

(** [not s] on a string. *)
Definition is_empty (s : str) : bool :=
  match s with [] => true | _ => false end.

(** How one turn of the [while True] loop ends. *)
Inductive control := Break | Continue (image_count : nat).

(** One optional setting, lines 177-179 and alike. *)
Definition ask (q : question) : M (option str) :=
  line <- input q ;;
  let v := strip line in
  ret (if is_empty v then None else Some v).

(** Lines 173-187: the settings of one request. *)
Definition read_kwargs : M kwargs :=
  line <- input QCustom ;;
  let custom := lower (strip line) in
  if str_eqb custom (lit "y") then
    size <- ask QSize ;;
    quality <- ask QQuality ;;
    style <- ask QStyle ;;
    ret {| kw_model := None; kw_size := size;
           kw_quality := quality; kw_style := style |}
  else ret no_kwargs.

(** [if filepath:] on what [generate_and_download] returned. *)
Definition path_truthy (filepath : option str) : bool :=
  match filepath with
  | Some p => negb (is_empty p)
  | None => false
  end.

(** The body of the loop, lines 161-199. *)
Definition loop_body (generator : GrokImageGenerator) (image_count : nat)
  : M control :=
  print MDashes ;;;
  line <- input QPrompt ;;
  let prompt := strip line in
  if str_in (lower prompt) exit_keywords then
    print (MGoodbye image_count) ;;;
    ret Break
  else if is_empty prompt then
    print MPromptEmpty ;;;
    ret (Continue image_count)
  else
    kw <- read_kwargs ;;
    filepath <- generate_and_download generator prompt kw ;;
    image_count' <-
      (if path_truthy filepath then
         let image_count := S image_count in
         print (MSuccess image_count) ;;; ret image_count
       else
         print MFailed ;;; ret image_count) ;;
    sleep 1 ;;;
    ret (Continue image_count').

(** [while True:], with a bound on the number of turns; [None] when the
    bound is reached before the loop ends. *)
Fixpoint main_loop (fuel : nat) (generator : GrokImageGenerator)
    (image_count : nat) (w : world) : option (outcome unit * world) :=
  match fuel with
  | O => None
  | S fuel' =>
      match loop_body generator image_count w with
      | (Ok Break, w') => Some (Ok tt, w')
      | (Ok (Continue image_count'), w') =>
          main_loop fuel' generator image_count' w'
      | (Raise e, w') => Some (Raise e, w')
      end
  end.

(** Lines 129-156: up to the loop; [None] when [main] returns early. *)
Definition main_setup : M (option GrokImageGenerator) :=
  print MRule ;;; print MTitle ;;; print MRule ;;;
  line <- input QApiKey ;;
  let api_key := strip line in
  if is_empty api_key then
    print MApiKeyRequired ;;;
    ret None
  else
    line <- input QFolder ;;
    let download_folder := strip line in
    let download_folder :=
      if is_empty download_folder then lit "grok_images" else download_folder in
    generator <- init api_key download_folder ;;
    print MRule ;;; print MReady ;;; print MRule ;;;
    print MOptions ;;; print MOptionSize ;;;
    print MOptionQuality ;;; print MOptionStyle ;;;
    ret (Some generator).

Definition main_fuel (fuel : nat) (w : world) : option (outcome unit * world) :=
  match main_setup w with
  | (Ok (Some generator), w') => main_loop fuel generator 0%nat w'
  | (Ok None, w') => Some (Ok tt, w')
  | (Raise e, w') => Some (Raise e, w')
  end.

(** [main()]: every turn of the loop reads a line, so one more turn than
    there are lines is enough. *)
Definition main (w : world) : option (outcome unit * world) :=
  main_fuel (S (length (stdin w))) w.
End Generator.


(** ** Reading a trace *)

(** The URLs fetched, in order. *)
Definition gets (tr : list event) : list json :=
  flat_map (fun e => match e with EGet url => [url] | _ => [] end) tr.

(** The requests posted, in order. *)
Definition posts (tr : list event) : list (str * list (str * str) * json) :=
  flat_map (fun e => match e with
                     | EPost url headers body => [(url, headers, body)]
                     | _ => []
                     end) tr.

Definition is_network (e : event) : bool :=
  match e with EPost _ _ _ | EGet _ => true | _ => false end.

(** A computation that only moves forward in standard input. *)
Definition reads_forward {A} (m : M A) : Prop :=
  forall w, (length (stdin (snd (m w))) <= length (stdin w))%nat.

(** No line is read. *)
Definition keeps_stdin {A} (m : M A) : Prop :=
  forall w, stdin (snd (m w)) = stdin w.

(** The URL of the first image of a well-formed answer: an object whose
    [data] is a list that starts with an object that has a [url]. *)
Definition first_image_url (result : json) : option json :=
  match result with
  | JObj kv =>
      match lookup (lit "data") kv with
      | Some (JArr (JObj first :: _)) => lookup (lit "url") first
      | _ => None
      end
  | _ => None
  end.

(** An answer without images: no answer at all, an object without [data],
    or one whose [data] is the empty list. *)
Definition no_image_list (result : json) : bool :=
  match result with
  | JNull => true
  | JObj kv =>
      match lookup (lit "data") kv with
      | None => true
      | Some (JArr []) => true
      | _ => false
      end
  | _ => false
  end.

(** ** Sample worlds *)

Definition sample_date : datetime :=
  {| year := 2024; month := 3; day := 9; hour := 14; minute := 5; second := 7 |}.

Definition png_data : bytes := map byte_of_ascii (list_ascii_of_string "PNGDATA").

Definition ok_response (v : option json) (body : bytes) : response :=
  {| status_code := 200; text := []; content := body; body_json := v |}.

(** An environment that answers every POST and every GET the same way, whose
    file system accepts everything and whose clock stands still. *)
Definition fixed_env (post get : outcome response) : env :=
  {| http_post := fun _ _ _ _ => post;
     http_get := fun _ _ => get;
     fs_mkdir := fun _ _ => None;
     fs_write := fun _ _ _ => None;
     clock := fun _ => sample_date;
     json_error := RequestException (lit "JSONDecodeError") None |}.

Definition fox_answer : json :=
  JObj [(lit "data", JArr [JObj [(lit "url", JStr (lit "http://example/img.png"))]])].

Definition fox_env : env :=
  fixed_env (Ok (ok_response (Some fox_answer) [])) (Ok (ok_response None png_data)).

(** An answer whose first image entry has no [url]. *)
Definition urlless_answer : json := JObj [(lit "data", JArr [JObj []])].

Definition urlless_env : env :=
  fixed_env (Ok (ok_response (Some urlless_answer) [])) (Ok (ok_response None png_data)).

(** The network is down: every request raises a [ConnectionError]. *)
Definition offline_env : env :=
  fixed_env (Raise (RequestException (lit "ConnectionError") None))
            (Raise (RequestException (lit "ConnectionError") None)).

Definition sample_generator : GrokImageGenerator :=
  {| api_key := lit "xai-key"; download_folder := lit "grok_images";
     base_url := lit "https://x.com/i/grok" |}.

Definition start (lines : list str) : world := {| stdin := lines; trace := [] |}.

(** ** More of the trace, more worlds *)

(** The files whose writing was attempted, in order. *)
Definition writes (tr : list event) : list (str * bytes) :=
  flat_map (fun e => match e with EWrite path content => [(path, content)] | _ => [] end) tr.

Definition is_saved (e : event) : bool :=
  match e with EPrint (MSaved _) => true | _ => false end.

(** How many times "image saved" was printed. *)
Definition saved (tr : list event) : nat := length (filter is_saved tr).

(** The text of the message printed when [generate_image] or
    [download_image] meets a 4xx or 5xx status. *)
Definition http_error (r : response) : exn :=
  RequestException (lit "HTTPError") (Some (text r)).

(** What [except RequestException] of [generate_image] prints for [e]. *)
Definition generation_error_report (e : exn) : list event :=
  match e with
  | RequestException _ (Some t) => [EPrint (MErrorGenerating e); EPrint (MResponse t)]
  | _ => [EPrint (MErrorGenerating e)]
  end.

(** A computation that prints no "image saved". *)
Definition keeps_saved {A} (m : M A) : Prop :=
  forall w, saved (trace (snd (m w))) = saved (trace w).

(** [None] for a blank answer, lines 178, 182 and 186. *)
Definition setting {U : Unicode} (answer : str) : option str :=
  if is_empty (strip answer) then None else Some (strip answer).

Definition status_response (status : Z) (body : str) : response :=
  {| status_code := status; text := body; content := []; body_json := None |}.

(** The API answers 500, the image host 404. *)
Definition server_error_env : env :=
  fixed_env (Ok (status_response 500 (lit "internal error")))
            (Ok (status_response 404 (lit "not found"))).

(** An older [requests]: [response.json()] raises a plain [ValueError] on a
    body that is not JSON, and the API sends such a body. *)
Definition legacy_env : env :=
  {| http_post := fun _ _ _ _ => Ok (ok_response None []);
     http_get := fun _ _ => Ok (ok_response None png_data);
     fs_mkdir := fun _ _ => None;
     fs_write := fun _ _ _ => None;
     clock := fun _ => sample_date;
     json_error := OtherException (lit "ValueError") |}.

(** The API and the image host answer well, but nothing can be written. *)
Definition readonly_env : env :=
  {| http_post := fun _ _ _ _ => Ok (ok_response (Some fox_answer) []);
     http_get := fun _ _ => Ok (ok_response None png_data);
     fs_mkdir := fun _ _ => Some (OSError (lit "Permission denied"));
     fs_write := fun _ _ _ => Some (OSError (lit "Permission denied"));
     clock := fun _ => sample_date;
     json_error := RequestException (lit "JSONDecodeError") None |}.

(** The image list of an answer, in the words of the specification: the
    list under the key [data] of an object. *)
Definition image_list (result : json) : option (list json) :=
  match result with
  | JObj kv =>
      match lookup (lit "data") kv with
      | Some (JArr entries) => Some entries
      | _ => None
      end
  | _ => None
  end.

(** [core] is [s] without its leading and trailing white space: what stands
    before and after [core] in [s] is white space, and [core] neither begins
    nor ends with any. *)
Definition stripped_of {U : Unicode} (s core : str) : Prop :=
  exists lead trail,
    s = lead ++ core ++ trail
    /\ forallb isspace lead = true
    /\ forallb isspace trail = true
    /\ (forall c rest, core = c :: rest -> isspace c = false)
    /\ (forall c front, core = front ++ [c] -> isspace c = false).

(** A prompt that [safe_prompt] only has to put underscores into: at most 50
    characters, all kept, none of white space at either end. *)
Definition clean_prompt {U : Unicode} (prompt : str) : Prop :=
  (length prompt <= 50)%nat
  /\ forallb keep prompt = true
  /\ isspace (hd SPACE prompt) = false
  /\ isspace (last prompt SPACE) = false.


(** * Properties *)

(** ** Text and file names *)

Lemma char_eqb_eq (a b : char) : char_eqb a b = true <-> a = b.
Proof. apply N.eqb_eq. Qed.

Lemma str_eqb_eq (a b : str) : str_eqb a b = true <-> a = b.
Proof.
  revert b; induction a as [|x a IH]; intros [|y b]; simpl;
    try (split; [discriminate | congruence]); try tauto.
  rewrite andb_true_iff, char_eqb_eq, IH.
  split; [intros [-> ->]; reflexivity | intros H; injection H; auto].
Qed.

Section TextFacts.
Context {U : Unicode}.

Lemma isspace_SPACE : isspace SPACE = true.
Proof. rewrite isspace_ascii; reflexivity. Qed.

Lemma lower_nil : lower [] = [].
Proof. rewrite lower_ascii; reflexivity. Qed.

Lemma lstrip_incl (s : str) (c : char) : In c (lstrip s) -> In c s.
Proof.
  induction s as [|x s IH]; simpl; auto.
  destruct (isspace x); simpl; auto.
Qed.

Lemma strip_incl (s : str) (c : char) : In c (strip s) -> In c s.
Proof.
  unfold strip, rstrip. intros H.
  apply in_rev, lstrip_incl in H. apply in_rev in H.
  now apply lstrip_incl.
Qed.

Lemma lstrip_spaces (s : str) : Forall (fun c => c = SPACE) s -> lstrip s = [].
Proof.
  induction 1 as [|x s Hx _ IH]; simpl; auto.
  subst x. now rewrite isspace_SPACE.
Qed.

Lemma strip_spaces (s : str) : Forall (fun c => c = SPACE) s -> strip s = [].
Proof.
  intros H. unfold strip. now rewrite (lstrip_spaces H).
Qed.

Lemma keep_cases (c : char) :
  keep c = true -> isalnum c = true \/ c = SPACE \/ c = HYPHEN \/ c = UNDERSCORE.
Proof.
  unfold keep. rewrite !orb_true_iff, !char_eqb_eq. tauto.
Qed.

Lemma safe_prompt_chars (prompt : str) :
  Forall (fun c => isalnum c = true \/ c = HYPHEN \/ c = UNDERSCORE)
         (safe_prompt prompt).
Proof.
  unfold safe_prompt, replace. apply Forall_forall. intros c Hc.
  apply in_map_iff in Hc. destruct Hc as [x [Hx Hin]].
  destruct (char_eqb x SPACE) eqn:Hsp.
  - subst c. auto.
  - subst c. apply strip_incl, filter_In in Hin. destruct Hin as [_ Hk].
    apply keep_cases in Hk. destruct Hk as [H | [H | [H | H]]]; auto.
    apply char_eqb_eq in H. congruence.
Qed.

Lemma safe_prompt_no_space (prompt : str) : ~ In SPACE (safe_prompt prompt).
Proof.
  unfold safe_prompt, replace. intros Hc.
  apply in_map_iff in Hc. destruct Hc as [x [Hx _]].
  destruct (char_eqb x SPACE) eqn:Hsp.
  - discriminate.
  - apply char_eqb_eq in Hx. congruence.
Qed.

Lemma safe_prompt_firstn (prompt : str) :
  safe_prompt (firstn 50%nat prompt) = safe_prompt prompt.
Proof. unfold safe_prompt. now rewrite firstn_firstn. Qed.

Lemma safe_prompt_empty (prompt : str) :
  Forall (fun c => isalnum c = false /\ c <> HYPHEN /\ c <> UNDERSCORE)
         (firstn 50%nat prompt) ->
  safe_prompt prompt = [].
Proof.
  intros H. unfold safe_prompt.
  rewrite strip_spaces; [reflexivity|].
  apply Forall_forall. intros c Hc. apply filter_In in Hc. destruct Hc as [Hin Hk].
  rewrite Forall_forall in H. destruct (H c Hin) as [Ha [Hh Hu]].
  apply keep_cases in Hk. destruct Hk as [? | [? | [? | ?]]]; congruence.
Qed.
End TextFacts.

Lemma digit_is_digit (n : N) : is_digit (digit n) = true.
Proof.
  unfold is_digit, digit.
  assert (n mod 10 < 10) by (apply N.mod_lt; discriminate).
  revert H. generalize (n mod 10). intros m Hm.
  apply andb_true_iff. split; apply N.leb_le; lia.
Qed.

Lemma strftime_shape (d : datetime) : timestamp_shape (strftime d) = true.
Proof.
  unfold strftime, pad4, pad2, timestamp_shape. simpl.
  now rewrite !digit_is_digit.
Qed.

Lemma strftime_length (d : datetime) : length (strftime d) = 15%nat.
Proof. reflexivity. Qed.

Lemma digit_value (n : N) : n < 10 -> digit n - 48 = n.
Proof.
  intros H. unfold digit. rewrite N.mod_small by assumption.
  rewrite N.add_comm. apply N.add_sub.
Qed.

Lemma decimal_pad2 (n : N) : n < 100 -> decimal (pad2 n) = n.
Proof.
  intros H. unfold decimal, pad2. cbn [fold_left].
  assert (Hq : n / 10 < 10) by (apply N.Div0.div_lt_upper_bound; lia).
  rewrite (digit_value Hq). unfold digit.
  pose proof (N.div_mod n 10) as Hdm.
  assert (Hr : n mod 10 < 10) by (apply N.mod_lt; discriminate).
  revert Hdm Hr. generalize (n mod 10). generalize (n / 10). intros q r Hdm Hr.
  specialize (Hdm ltac:(discriminate)). lia.
Qed.

Lemma decimal_pad4 (n : N) : n < 10000 -> decimal (pad4 n) = n.
Proof.
  intros H. unfold decimal, pad4. cbn [fold_left].
  assert (H3 : n / 1000 < 10) by (apply N.Div0.div_lt_upper_bound; lia).
  rewrite (digit_value H3). unfold digit.
  replace (n / 1000) with (n / 10 / 10 / 10)
    by (rewrite !N.Div0.div_div; reflexivity).
  replace (n / 100) with (n / 10 / 10) by (rewrite !N.Div0.div_div; reflexivity).
  pose proof (N.div_mod n 10 ltac:(discriminate)) as E0.
  pose proof (N.div_mod (n / 10) 10 ltac:(discriminate)) as E1.
  pose proof (N.div_mod (n / 10 / 10) 10 ltac:(discriminate)) as E2.
  assert (R0 : n mod 10 < 10) by (apply N.mod_lt; discriminate).
  assert (R1 : (n / 10) mod 10 < 10) by (apply N.mod_lt; discriminate).
  assert (R2 : (n / 10 / 10) mod 10 < 10) by (apply N.mod_lt; discriminate).
  revert E0 E1 E2 R0 R1 R2.
  generalize (n mod 10). generalize ((n / 10) mod 10).
  generalize ((n / 10 / 10) mod 10). generalize (n / 10 / 10 / 10).
  generalize (n / 10 / 10). generalize (n / 10).
  intros q1 q2 q3 r2 r1 r0 E0 E1 E2 R0 R1 R2. lia.
Qed.

(** Within the ranges of a date, the timestamp spells the date back. *)
Lemma strftime_reads_back (d : datetime) :
  valid_datetime d -> read_timestamp (strftime d) = d.
Proof.
  intros [Hy [Hm [Hd [Hh [Hmi Hs]]]]]. destruct d as [y mo da h mi se].
  simpl in *. unfold read_timestamp, strftime, slice. simpl firstn.
  cbn [year month day hour minute second].
  change [digit (y / 1000); digit (y / 100); digit (y / 10); digit y] with (pad4 y).
  change [digit (mo / 10); digit mo] with (pad2 mo).
  change [digit (da / 10); digit da] with (pad2 da).
  change [digit (h / 10); digit h] with (pad2 h).
  change [digit (mi / 10); digit mi] with (pad2 mi).
  change [digit (se / 10); digit se] with (pad2 se).
  rewrite decimal_pad4 by lia. rewrite !decimal_pad2 by lia. reflexivity.
Qed.

Lemma path_join_nonempty (a b : str) : b <> [] -> path_join a b <> [].
Proof.
  intros Hb. unfold path_join.
  destruct (startswith [SLASH] b); [assumption|].
  destruct (_ || _); intros H; apply app_eq_nil in H; destruct H as [_ H];
    [contradiction | discriminate].
Qed.

(** ** Traces *)

Lemma gets_app (a b : list event) : gets (a ++ b) = gets a ++ gets b.
Proof. apply flat_map_app. Qed.

Lemma posts_app (a b : list event) : posts (a ++ b) = posts a ++ posts b.
Proof. apply flat_map_app. Qed.

Lemma filter_network_app (a b : list event) :
  filter is_network (a ++ b) = filter is_network a ++ filter is_network b.
Proof. apply filter_app. Qed.

(** ** Running computations *)

Lemma bind_ok A B (m : M A) (k : A -> M B) (w w1 : world) (a : A) :
  m w = (Ok a, w1) -> bind m k w = k a w1.
Proof. unfold bind. now intros ->. Qed.

Lemma bind_raise A B (m : M A) (k : A -> M B) (w w1 : world) (e : exn) :
  m w = (Raise e, w1) -> bind m k w = (Raise e, w1).
Proof. unfold bind. now intros ->. Qed.

Arguments bind_ok [A B m] k [w w1 a] _.
Arguments bind_raise [A B m] k [w w1 e] _.

Create HintDb py discriminated.
#[local] Hint Unfold try_except bind ret raise lift print sleep emit input
  requests_post requests_get raise_for_status response_json
  write_file mkdir datetime_now : py.

Ltac run := repeat autounfold with py; simpl.

(** Split on the innermost thing a [match] of the goal looks at. *)
Ltac cases :=
  repeat match goal with
         | |- context [match ?x with _ => _ end] =>
             lazymatch x with
             | context [match _ with _ => _ end] => fail
             | _ => destruct x eqn:?; simpl
             end
         end.

Section Components.
Context {U : Unicode}.
Variable E : env.

(** *** The Downloader *)

(** [download_image] catches whatever is raised inside it. *)
Lemma download_image_never_raises self url prompt w :
  exists r w', download_image E self url prompt w = (Ok r, w').
Proof.
  unfold download_image. run. cases; eauto.
Qed.

(** It fetches the URL once, and leaves standard input alone. *)
Lemma download_image_trace self url prompt w :
  exists rest,
    trace (snd (download_image E self url prompt w))
    = trace w ++ [EPrint MDownloading; EGet url] ++ rest
    /\ gets rest = [] /\ posts rest = []
    /\ stdin (snd (download_image E self url prompt w)) = stdin w.
Proof.
  unfold download_image. run. cases;
    (eexists; split; [rewrite <- ?app_assoc; simpl; reflexivity | auto]).
Qed.

Lemma download_image_gets self url prompt w :
  gets (trace (snd (download_image E self url prompt w))) = gets (trace w) ++ [url].
Proof.
  destruct (download_image_trace self url prompt w) as [rest [Ht [Hg _]]].
  rewrite Ht, !gets_app, Hg. reflexivity.
Qed.

(** The path it returns is the download folder joined with the file name
    made from the prompt and the time of the call. *)
Lemma download_image_path self url prompt w p w' :
  download_image E self url prompt w = (Ok (Some p), w') ->
  p = path_join (download_folder self) (filename (clock E (trace w)) prompt).
Proof.
  unfold download_image. run. cases; intros H; inversion H; reflexivity.
Qed.

Lemma filename_nonempty now prompt : filename now prompt <> [].
Proof. unfold filename, strftime, pad4. simpl. discriminate. Qed.

Lemma download_image_path_nonempty self url prompt w p w' :
  download_image E self url prompt w = (Ok (Some p), w') -> p <> [].
Proof.
  intros H. apply download_image_path in H. subst p.
  apply path_join_nonempty, filename_nonempty.
Qed.

(** When the GET answers with a good status and the file can be written, the
    image is saved under that path. *)
Lemma download_image_saves self url prompt w r :
  let filepath :=
    path_join (download_folder self) (filename (clock E (trace w)) prompt) in
  let t := (trace w ++ [EPrint MDownloading]) ++ [EGet url] in
  http_get E (trace w ++ [EPrint MDownloading]) url = Ok r ->
  (Z.leb 400 (status_code r) && Z.ltb (status_code r) 600 = false)%bool ->
  fs_write E t filepath (content r) = None ->
  download_image E self url prompt w
  = (Ok (Some filepath),
     {| stdin := stdin w;
        trace := (t ++ [EWrite filepath (content r)]) ++ [EPrint (MSaved filepath)] |}).
Proof.
  intros filepath t Hg Hs Hw. unfold download_image. run.
  rewrite Hg, Hs. simpl. fold filepath. fold t. rewrite Hw. reflexivity.
Qed.

(** *** The API client *)

(** [generate_image] posts once, before anything else on the network, and
    leaves standard input alone. *)
Lemma generate_image_trace self prompt model size quality style w :
  exists rest,
    trace (snd (generate_image E self prompt model size quality style w))
    = trace w ++ [EPrint (MGenerating prompt);
                  EPost (base_url self) (headers_of self)
                        (payload_of prompt model size quality style)] ++ rest
    /\ gets rest = [] /\ posts rest = []
    /\ stdin (snd (generate_image E self prompt model size quality style w)) = stdin w.
Proof.
  unfold generate_image. run. cases;
    (eexists; split; [rewrite <- ?app_assoc; simpl; reflexivity | auto]).
Qed.

(** As long as the library raises [RequestException]s only, so does nothing
    leave [generate_image]. *)
Lemma generate_image_catches self prompt model size quality style w :
  is_RequestException (json_error E) = true ->
  (forall tr url headers body e,
      http_post E tr url headers body = Raise e -> is_RequestException e = true) ->
  exists r w', generate_image E self prompt model size quality style w = (Ok r, w').
Proof.
  intros Hj Hp. unfold generate_image. run.
  destruct (http_post E _ _ _ _) eqn:Hpost; simpl.
  - cases; eauto; try discriminate;
      destruct (json_error E); try discriminate; simpl; cases; eauto.
  - apply Hp in Hpost. destruct e; try discriminate. simpl. cases; eauto.
Qed.

(** A network failure on the POST gives an absent result. *)
Lemma generate_image_offline self prompt model size quality style w detail rt :
  http_post E (trace w ++ [EPrint (MGenerating prompt)]) (base_url self)
            (headers_of self) (payload_of prompt model size quality style)
  = Raise (RequestException detail rt) ->
  fst (generate_image E self prompt model size quality style w) = Ok JNull.
Proof.
  intros H. unfold generate_image. run. rewrite H. simpl. cases; reflexivity.
Qed.
End Components.

(** ** Orchestration *)

Lemma first_image_url_inv (result url : json) :
  first_image_url result = Some url ->
  exists kv first rest,
    result = JObj kv
    /\ lookup (lit "data") kv = Some (JArr (JObj first :: rest))
    /\ lookup (lit "url") first = Some url.
Proof.
  unfold first_image_url. intros H.
  destruct result as [| | | | | |kv]; try discriminate.
  destruct (lookup (lit "data") kv) as [[| | | | |[|[| | | | | |first] rest]|]|] eqn:Hd;
    try discriminate.
  now exists kv, first, rest.
Qed.

Lemma lookup_some_nonempty k kv v : lookup k kv = Some v -> kv <> [].
Proof. destruct kv; [discriminate | discriminate]. Qed.

Section Orchestration.
Context {U : Unicode}.
Variable E : env.

Lemma has_images_first (result url : json) :
  first_image_url result = Some url -> has_images result = Ok true.
Proof.
  intros H. apply first_image_url_inv in H.
  destruct H as [kv [first [rest [-> [Hd _]]]]].
  unfold has_images, truthy, contains, getitem.
  destruct kv; [discriminate|]. now rewrite Hd.
Qed.

Lemma has_images_none (result : json) :
  no_image_list result = true -> has_images result = Ok false.
Proof.
  unfold no_image_list, has_images, truthy, contains, getitem. intros H.
  destruct result as [| | | | | |kv]; try discriminate; try reflexivity.
  destruct kv as [|b kv]; [reflexivity|].
  destruct (lookup (lit "data") (b :: kv)) as [[| | | | |[|]|]|];
    try discriminate; reflexivity.
Qed.

Lemma generate_and_download_first self prompt kw w result w1 url :
  generate_image_kw E self prompt kw w = (Ok result, w1) ->
  first_image_url result = Some url ->
  generate_and_download E self prompt kw w = download_image E self url prompt w1.
Proof.
  intros Hg Hu. unfold generate_and_download.
  rewrite (bind_ok _ Hg). erewrite has_images_first by eassumption.
  apply first_image_url_inv in Hu.
  destruct Hu as [kv [first [rest [-> [Hd Hurl]]]]].
  unfold bind at 1, lift at 1. unfold getitem at 1. rewrite Hd.
  unfold bind at 1, lift at 1. simpl getitem0. cbv iota.
  unfold bind at 1, lift at 1. unfold getitem. rewrite Hurl.
  unfold bind, lift. reflexivity.
Qed.

Lemma generate_and_download_none self prompt kw w result w1 :
  generate_image_kw E self prompt kw w = (Ok result, w1) ->
  no_image_list result = true ->
  generate_and_download E self prompt kw w
  = (Ok None, {| stdin := stdin w1; trace := trace w1 ++ [EPrint MNoImageUrl] |}).
Proof.
  intros Hg Hn. unfold generate_and_download.
  rewrite (bind_ok _ Hg). rewrite has_images_none by assumption. reflexivity.
Qed.

Lemma generate_image_kw_gets self prompt kw w :
  gets (trace (snd (generate_image_kw E self prompt kw w))) = gets (trace w).
Proof.
  unfold generate_image_kw.
  destruct (generate_image_trace E self prompt
              (default (lit "grok-2-vision-1212") (kw_model kw))
              (default (lit "1024x1024") (kw_size kw))
              (default (lit "medium") (kw_quality kw))
              (default (lit "natural") (kw_style kw)) w) as [rest [Ht [Hg _]]].
  rewrite Ht, !gets_app, Hg. simpl. now rewrite app_nil_r.
Qed.
End Orchestration.

(** ** What [strip] does *)

Section StripFacts.
Context {U : Unicode}.

Lemma lstrip_split (s : str) :
  exists lead, s = lead ++ lstrip s /\ forallb isspace lead = true.
Proof.
  induction s as [|c s [lead [Hs Hl]]]; [now exists []|].
  simpl. destruct (isspace c) eqn:Hc.
  - exists (c :: lead). simpl. rewrite Hc, Hl. split; [now f_equal | reflexivity].
  - now exists [].
Qed.

Lemma lstrip_head (s : str) (c : char) (rest : str) :
  lstrip s = c :: rest -> isspace c = false.
Proof.
  induction s as [|a s IH]; simpl; [discriminate|].
  destruct (isspace a) eqn:Ha; [exact IH|].
  intros H. injection H as <- _. exact Ha.
Qed.

Lemma forallb_isspace_rev (s : str) :
  forallb isspace s = true -> forallb isspace (rev s) = true.
Proof.
  rewrite !forallb_forall. intros H c Hc. apply H. now apply in_rev.
Qed.

(** [strip] takes away the white space at both ends, all of it and nothing
    else. *)
Lemma strip_stripped_of (s : str) : stripped_of s (strip s).
Proof.
  unfold stripped_of, strip, rstrip.
  destruct (lstrip_split s) as [lead [Hs Hl]].
  destruct (lstrip_split (rev (lstrip s))) as [tl [Ht Htl]].
  assert (Hmid : lstrip s = rev (lstrip (rev (lstrip s))) ++ rev tl).
  { rewrite <- rev_app_distr, <- Ht. symmetry. apply rev_involutive. }
  exists lead, (rev tl). split; [|split; [|split; [|split]]].
  - rewrite <- Hmid. exact Hs.
  - exact Hl.
  - now apply forallb_isspace_rev.
  - intros c rest Hc. rewrite Hc in Hmid. simpl in Hmid.
    now apply lstrip_head in Hmid.
  - intros c front Hc. apply (f_equal (@rev char)) in Hc.
    rewrite rev_involutive, rev_app_distr in Hc. simpl in Hc.
    now apply lstrip_head in Hc.
Qed.
End StripFacts.

(** ** The claims about the components *)

Section ComponentClaims.
Context {U : Unicode}.
Variable E : env.

(** The orchestration on a well-formed answer: when the first entry of the
    image list carries a URL, the orchestration is one call of the Downloader
    on that URL (one GET, of that URL); when the image list is empty or
    missing, nothing is fetched, "no image URL found" is printed and the
    result is absent. *)
Theorem generate_and_download_dispatch self prompt kw w result w1 :
  generate_image_kw E self prompt kw w = (Ok result, w1) ->
  (forall url, first_image_url result = Some url ->
     generate_and_download E self prompt kw w = download_image E self url prompt w1
     /\ gets (trace (snd (generate_and_download E self prompt kw w)))
        = gets (trace w) ++ [url])
  /\ (no_image_list result = true ->
      generate_and_download E self prompt kw w
      = (Ok None, {| stdin := stdin w1; trace := trace w1 ++ [EPrint MNoImageUrl] |})
      /\ gets (trace (snd (generate_and_download E self prompt kw w)))
         = gets (trace w)).
Proof.
  intros Hg.
  assert (Hw1 : gets (trace w1) = gets (trace w)).
  { rewrite <- (generate_image_kw_gets E self prompt kw w). now rewrite Hg. }
  split.
  - intros url Hu.
    rewrite (generate_and_download_first E self prompt kw w Hg Hu).
    split; [reflexivity|]. now rewrite download_image_gets, Hw1.
  - intros Hn.
    rewrite (generate_and_download_none E self prompt kw w Hg Hn).
    split; [reflexivity|]. simpl. rewrite gets_app, Hw1. simpl. apply app_nil_r.
Qed.

(** C8. A generation call posts exactly once, to the generator's endpoint,
    with the bearer token and the JSON content type as headers and a body of
    the six keys model, prompt, n, size, quality, style, where n is 1. *)
Theorem generate_image_posts_once self prompt model size quality style w :
  posts (trace (snd (generate_image E self prompt model size quality style w)))
  = posts (trace w)
    ++ [(base_url self,
         [(lit "Authorization", lit "Bearer " ++ api_key self);
          (lit "Content-Type", lit "application/json")],
         JObj [(lit "model", JStr model);
               (lit "prompt", JStr prompt);
               (lit "n", JInt 1);
               (lit "size", JStr size);
               (lit "quality", JStr quality);
               (lit "style", JStr style)])].
Proof.
  destruct (generate_image_trace E self prompt model size quality style w)
    as [rest [Ht [_ [Hp _]]]].
  rewrite Ht, !posts_app, Hp. simpl. reflexivity.
Qed.

(** C3. For a non-empty prompt, at any date of the clock, the file name is
    the timestamp, of the shape YYYYMMDD_HHMMSS and spelling that date, an
    underscore, the sanitized prompt and ".png"; the sanitized prompt is the
    selection of the first 50 characters, without the white space at its two
    ends (all of it, and nothing else), with spaces turned into underscores;
    it holds alphanumerics, hyphens and underscores only, and no space; and
    this is the name of the path the Downloader returns. *)
Theorem filename_shape now prompt :
  prompt <> [] ->
  valid_datetime now ->
  filename now prompt
  = strftime now ++ [UNDERSCORE] ++ safe_prompt prompt ++ lit ".png"
  /\ timestamp_shape (strftime now) = true
  /\ read_timestamp (strftime now) = now
  /\ safe_prompt prompt
     = replace SPACE UNDERSCORE (strip (filter keep (firstn 50%nat prompt)))
  /\ (exists core,
         stripped_of (filter keep (firstn 50%nat prompt)) core
         /\ safe_prompt prompt = replace SPACE UNDERSCORE core)
  /\ Forall (fun c => isalnum c = true \/ c = HYPHEN \/ c = UNDERSCORE)
            (safe_prompt prompt)
  /\ ~ In SPACE (safe_prompt prompt)
  /\ (forall self url w p w',
         download_image E self url prompt w = (Ok (Some p), w') ->
         p = path_join (download_folder self)
                       (filename (clock E (trace w)) prompt)).
Proof.
  intros _ Hnow.
  split; [reflexivity|]. split; [apply strftime_shape|].
  split; [now apply strftime_reads_back|]. split; [reflexivity|].
  split.
  { exists (strip (filter keep (firstn 50%nat prompt))).
    split; [apply strip_stripped_of | reflexivity]. }
  repeat split.
  - apply safe_prompt_chars.
  - apply safe_prompt_no_space.
  - intros self url w p w'. apply download_image_path.
Qed.

(** C4. A prompt of more than 50 characters gives the file name of any text
    with the same first 50 characters: what comes after them plays no part. *)
Theorem filename_first_50 now prompt other :
  (50 < length prompt)%nat ->
  firstn 50%nat other = firstn 50%nat prompt ->
  safe_prompt prompt = safe_prompt (firstn 50%nat prompt)
  /\ safe_prompt other = safe_prompt prompt
  /\ filename now other = filename now prompt.
Proof.
  intros _ H.
  assert (Hs : safe_prompt other = safe_prompt prompt).
  { unfold safe_prompt. now rewrite H. }
  split; [symmetry; apply safe_prompt_firstn|].
  split; [exact Hs|]. unfold filename. now rewrite Hs.
Qed.

(** C10. A non-empty prompt whose first 50 characters hold no alphanumeric,
    hyphen or underscore has the empty sanitized part; the Downloader goes on
    all the same: it fetches the URL, raises nothing, and when the download
    and the write succeed it returns the path of <timestamp>_.png. *)
Theorem punctuation_prompt_downloads self url prompt w :
  prompt <> [] ->
  Forall (fun c => isalnum c = false /\ c <> HYPHEN /\ c <> UNDERSCORE)
         (firstn 50%nat prompt) ->
  let now := clock E (trace w) in
  let filepath := path_join (download_folder self) (strftime now ++ lit "_.png") in
  safe_prompt prompt = []
  /\ filename now prompt = strftime now ++ lit "_.png"
  /\ (exists r w', download_image E self url prompt w = (Ok r, w'))
  /\ gets (trace (snd (download_image E self url prompt w))) = gets (trace w) ++ [url]
  /\ (forall r,
         http_get E (trace w ++ [EPrint MDownloading]) url = Ok r ->
         (Z.leb 400 (status_code r) && Z.ltb (status_code r) 600 = false)%bool ->
         fs_write E ((trace w ++ [EPrint MDownloading]) ++ [EGet url])
                  filepath (content r) = None ->
         fst (download_image E self url prompt w) = Ok (Some filepath)).
Proof.
  intros _ H now filepath.
  assert (Hs : safe_prompt prompt = []) by now apply safe_prompt_empty.
  assert (Hf : filename now prompt = strftime now ++ lit "_.png").
  { unfold filename. rewrite Hs. reflexivity. }
  split; [exact Hs|]. split; [exact Hf|].
  split; [apply download_image_never_raises|].
  split; [apply download_image_gets|].
  intros r Hg Hst Hw.
  rewrite (download_image_saves E self url prompt w Hg Hst).
  - simpl. fold now. rewrite Hf. reflexivity.
  - fold now. rewrite Hf. exact Hw.
Qed.
End ComponentClaims.

(** ** Standard input *)

Lemma keeps_reads_forward A (m : M A) : keeps_stdin m -> reads_forward m.
Proof. intros H w. rewrite H. apply Nat.le_refl. Qed.

Lemma reads_forward_ret A (a : A) : reads_forward (ret a).
Proof. intros w. apply Nat.le_refl. Qed.

Lemma reads_forward_print m : reads_forward (print m).
Proof. intros w. apply Nat.le_refl. Qed.

Lemma reads_forward_sleep n : reads_forward (sleep n).
Proof. intros w. apply Nat.le_refl. Qed.

Lemma reads_forward_input q : reads_forward (input q).
Proof.
  intros w. unfold input. destruct (stdin w); simpl; auto.
Qed.

Lemma reads_forward_bind A B (m : M A) (k : A -> M B) :
  reads_forward m -> (forall a, reads_forward (k a)) -> reads_forward (bind m k).
Proof.
  intros Hm Hk w. unfold bind. specialize (Hm w).
  destruct (m w) as [[a|e] w1]; simpl in *; [|assumption].
  specialize (Hk a w1). eapply Nat.le_trans; eassumption.
Qed.

Lemma reads_forward_if A (b : bool) (m1 m2 : M A) :
  reads_forward m1 -> reads_forward m2 -> reads_forward (if b then m1 else m2).
Proof. destruct b; auto. Qed.

Create HintDb forward discriminated.
#[local] Hint Resolve reads_forward_ret reads_forward_print reads_forward_sleep
  reads_forward_input reads_forward_bind reads_forward_if : forward.

Section Loop.
Context {U : Unicode}.
Variable E : env.

Lemma generate_and_download_keeps_stdin self prompt kw :
  keeps_stdin (generate_and_download E self prompt kw).
Proof.
  intros w. unfold generate_and_download, bind at 1.
  pose proof (generate_image_trace E self prompt
                (default (lit "grok-2-vision-1212") (kw_model kw))
                (default (lit "1024x1024") (kw_size kw))
                (default (lit "medium") (kw_quality kw))
                (default (lit "natural") (kw_style kw)) w) as [_ [_ [_ [_ Hs]]]].
  fold (generate_image_kw E self prompt kw) in Hs.
  destruct (generate_image_kw E self prompt kw w) as [[result|e] w1];
    simpl in Hs; [|exact Hs].
  rewrite <- Hs. unfold bind, lift.
  destruct (has_images result) as [[|]|]; simpl; try reflexivity.
  destruct (getitem result (lit "data")) as [data|]; simpl; try reflexivity.
  destruct (getitem0 data) as [first|]; simpl; try reflexivity.
  destruct (getitem first (lit "url")) as [url|]; simpl; try reflexivity.
  pose proof (download_image_trace E self url prompt w1) as [_ [_ [_ [_ Hd]]]].
  exact Hd.
Qed.

Lemma reads_forward_ask q : reads_forward (ask q).
Proof. unfold ask. auto with forward. Qed.

Lemma reads_forward_read_kwargs : reads_forward read_kwargs.
Proof.
  unfold read_kwargs. apply reads_forward_bind; [auto with forward|].
  intros line. apply reads_forward_if; [|auto with forward].
  repeat (apply reads_forward_bind; [apply reads_forward_ask | intros ?]).
  auto with forward.
Qed.

(** A turn of the loop, once the prompt line is read. *)
Lemma loop_body_line generator image_count w line rest :
  stdin w = line :: rest ->
  loop_body E generator image_count w
  = (let prompt := strip line in
     if str_in (lower prompt) exit_keywords then
       print (MGoodbye image_count) ;;; ret Break
     else if is_empty prompt then
       print MPromptEmpty ;;; ret (Continue image_count)
     else
       kw <- read_kwargs ;;
       filepath <- generate_and_download E generator prompt kw ;;
       image_count' <-
         (if path_truthy filepath then
            print (MSuccess (S image_count)) ;;; ret (S image_count)
          else print MFailed ;;; ret image_count) ;;
       sleep 1 ;;; ret (Continue image_count'))
      {| stdin := rest;
         trace := (trace w ++ [EPrint MDashes]) ++ [EInput QPrompt (Some line)] |}.
Proof.
  intros H. unfold loop_body.
  unfold bind at 1, print at 1, emit at 1.
  unfold bind at 1, input at 1. cbn [stdin trace]. rewrite H. reflexivity.
Qed.

Lemma loop_body_eof generator image_count w :
  stdin w = [] ->
  fst (loop_body E generator image_count w) = Raise EOFError.
Proof.
  intros H. unfold loop_body.
  unfold bind at 1, print at 1, emit at 1.
  unfold bind at 1, input at 1. cbn [stdin trace]. rewrite H. reflexivity.
Qed.

(** A turn of the loop that goes on has read at least one line. *)
Lemma loop_body_reads generator image_count w image_count' w' :
  loop_body E generator image_count w = (Ok (Continue image_count'), w') ->
  (length (stdin w') < length (stdin w))%nat.
Proof.
  destruct (stdin w) as [|line rest] eqn:Hin.
  - intros H. pose proof (loop_body_eof generator image_count w Hin) as He.
    rewrite H in He. discriminate.
  - rewrite (loop_body_line generator image_count w Hin). cbv zeta.
    set (w0 := {| stdin := rest; trace := _ |}).
    destruct (str_in (lower (strip line)) exit_keywords);
      [unfold bind, print, emit, ret; simpl; discriminate|].
    destruct (is_empty (strip line)).
    + unfold bind, print, emit, ret. simpl. intros H. inversion H. simpl. lia.
    + intros H.
      assert (Hf : reads_forward
        (kw <- read_kwargs ;;
         filepath <- generate_and_download E generator (strip line) kw ;;
         image_count' <-
           (if path_truthy filepath then
              print (MSuccess (S image_count)) ;;; ret (S image_count)
            else print MFailed ;;; ret image_count) ;;
         sleep 1 ;;; ret (Continue image_count'))).
      { apply reads_forward_bind; [apply reads_forward_read_kwargs|]. intros kw.
        apply reads_forward_bind;
          [apply keeps_reads_forward, generate_and_download_keeps_stdin|].
        intros fp. apply reads_forward_bind; [|auto with forward].
        apply reads_forward_if; auto with forward. }
      specialize (Hf w0). rewrite H in Hf. simpl in Hf. simpl. lia.
Qed.

(** The loop ends, by [break] or by an exception, within one turn more than
    there are lines to read. *)
Lemma main_loop_total fuel generator image_count w :
  (length (stdin w) < fuel)%nat ->
  exists r, main_loop E fuel generator image_count w = Some r.
Proof.
  revert image_count w. induction fuel as [|fuel IH]; intros c w Hlen.
  - inversion Hlen.
  - simpl. destruct (loop_body E generator c w) as [[[|c']|e] w'] eqn:Hb; eauto.
    apply IH. apply loop_body_reads in Hb. lia.
Qed.

Lemma reads_forward_main_setup : reads_forward (main_setup E).
Proof.
  unfold main_setup, init.
  repeat (apply reads_forward_bind; [auto with forward | intros ?]).
  apply reads_forward_if; [auto with forward|].
  apply reads_forward_bind; [auto with forward | intros ?].
  apply reads_forward_bind.
  - apply reads_forward_bind; [|auto with forward].
    apply keeps_reads_forward. intros w. reflexivity.
  - intros ?. auto 20 with forward.
Qed.

(** [main] always ends. *)
Lemma main_total w : exists r, main E w = Some r.
Proof.
  unfold main, main_fuel.
  pose proof (reads_forward_main_setup w) as Hs.
  destruct (main_setup E w) as [[[g|]|e] w']; simpl in Hs; eauto.
  apply main_loop_total. lia.
Qed.
End Loop.

(** ** The claims about [main] *)

Section MainClaims.
Context {U : Unicode}.
Variable E : env.

Lemma is_empty_strip_false (s : str) : strip s <> [] -> is_empty (strip s) = false.
Proof. destruct (strip s); [contradiction | reflexivity]. Qed.

Lemma no_exit_on_empty : str_in (lower []) exit_keywords = false.
Proof. rewrite lower_nil. reflexivity. Qed.

Lemma exit_on_quit : str_in (lower (strip (lit "quit"))) exit_keywords = true.
Proof.
  assert (Hs : strip (lit "quit") = lit "quit").
  { unfold strip, rstrip. change (lit "quit") with [113; 117; 105; 116].
    cbn [lstrip]. rewrite (isspace_ascii 113) by reflexivity.
    change (ascii_isspace 113) with false. cbv iota.
    cbn [rev app lstrip]. rewrite (isspace_ascii 116) by reflexivity.
    reflexivity. }
  rewrite Hs, lower_ascii by reflexivity. reflexivity.
Qed.

(** What [main] has done when it reaches the loop. *)
Lemma main_setup_ready w key folder rest :
  stdin w = key :: folder :: rest ->
  strip key <> [] ->
  (forall tr p, fs_mkdir E tr p = None) ->
  exists generator tr,
    main_setup E w = (Ok (Some generator), {| stdin := rest; trace := trace w ++ tr |})
    /\ filter is_network tr = []
    /\ api_key generator = strip key
    /\ base_url generator = lit "https://x.com/i/grok".
Proof.
  intros Hin Hkey Hmk.
  exists {| api_key := strip key;
            download_folder :=
              if is_empty (strip folder) then lit "grok_images" else strip folder;
            base_url := lit "https://x.com/i/grok" |}.
  unfold main_setup, init. repeat autounfold with py. cbn [stdin trace].
  rewrite Hin. cbn [stdin trace].
  rewrite is_empty_strip_false by assumption. cbn [stdin trace].
  rewrite Hmk. cbn [stdin trace].
  eexists. split; [|split; [|split; reflexivity]].
  - rewrite <- ?app_assoc. cbn [app]. reflexivity.
  - reflexivity.
Qed.

Lemma loop_body_exit generator image_count w line rest :
  stdin w = line :: rest ->
  str_in (lower (strip line)) exit_keywords = true ->
  loop_body E generator image_count w
  = (Ok Break,
     {| stdin := rest;
        trace := trace w ++ [EPrint MDashes; EInput QPrompt (Some line);
                             EPrint (MGoodbye image_count)] |}).
Proof.
  intros Hin Hexit. rewrite (loop_body_line E generator image_count w Hin).
  cbv zeta. rewrite Hexit. run. rewrite <- !app_assoc. reflexivity.
Qed.

(** Typing "quit" at the first prompt: the loop ends at once, with no image
    counted and nothing sent. *)
Lemma main_quit_first key folder more :
  strip key <> [] ->
  (forall tr p, fs_mkdir E tr p = None) ->
  exists tr,
    main E (start (key :: folder :: lit "quit" :: more))
    = Some (Ok tt, {| stdin := more; trace := tr ++ [EPrint (MGoodbye 0)] |})
    /\ filter is_network tr = [].
Proof.
  intros Hkey Hmk. unfold main, main_fuel.
  destruct (@main_setup_ready (start (key :: folder :: lit "quit" :: more))
              key folder (lit "quit" :: more) eq_refl Hkey Hmk)
    as [g [tr [Hs [Hn _]]]].
  rewrite Hs. cbn [main_loop].
  rewrite (@loop_body_exit g 0%nat
             {| stdin := lit "quit" :: more;
                trace := trace (start (key :: folder :: lit "quit" :: more)) ++ tr |}
             (lit "quit") more eq_refl exit_on_quit).
  exists (tr ++ [EPrint MDashes; EInput QPrompt (Some (lit "quit"))]).
  split.
  - simpl. rewrite <- !app_assoc. reflexivity.
  - rewrite filter_network_app, Hn. reflexivity.
Qed.

(** C6. A prompt line that, stripped and lowered, is an exit keyword ends the
    loop in that turn: the count is reported and no request is made; and
    "quit" as the first prompt ends [main] reporting 0 images with nothing
    sent at all. *)
Theorem exit_keyword_ends_loop generator image_count w line rest fuel :
  stdin w = line :: rest ->
  str_in (lower (strip line)) exit_keywords = true ->
  let w' := {| stdin := rest;
               trace := trace w ++ [EPrint MDashes; EInput QPrompt (Some line);
                                    EPrint (MGoodbye image_count)] |} in
  loop_body E generator image_count w = (Ok Break, w')
  /\ main_loop E (S fuel) generator image_count w = Some (Ok tt, w')
  /\ filter is_network (trace w') = filter is_network (trace w)
  /\ (forall key folder more,
         strip key <> [] ->
         (forall tr p, fs_mkdir E tr p = None) ->
         exists tr,
           main E (start (key :: folder :: lit "quit" :: more))
           = Some (Ok tt, {| stdin := more; trace := tr ++ [EPrint (MGoodbye 0)] |})
           /\ filter is_network tr = []).
Proof.
  intros Hin Hexit w'.
  pose proof (loop_body_exit generator image_count w Hin Hexit) as Hb.
  split; [exact Hb|]. split; [simpl; now rewrite Hb|].
  split.
  - unfold w'. simpl. rewrite filter_network_app. simpl. apply app_nil_r.
  - intros key folder more. apply main_quit_first.
Qed.

(** C7. An empty prompt gets the warning and the next turn: nothing is sent
    and the count stays. *)
Theorem empty_prompt_skipped generator image_count w line rest fuel :
  stdin w = line :: rest ->
  strip line = [] ->
  let w' := {| stdin := rest;
               trace := trace w ++ [EPrint MDashes; EInput QPrompt (Some line);
                                    EPrint MPromptEmpty] |} in
  loop_body E generator image_count w = (Ok (Continue image_count), w')
  /\ main_loop E (S fuel) generator image_count w
     = main_loop E fuel generator image_count w'
  /\ filter is_network (trace w') = filter is_network (trace w).
Proof.
  intros Hin Hempty w'.
  assert (Hb : loop_body E generator image_count w = (Ok (Continue image_count), w')).
  { rewrite (loop_body_line E generator image_count w Hin). cbv zeta.
    rewrite Hempty, no_exit_on_empty. run. unfold w'.
    rewrite <- !app_assoc. reflexivity. }
  split; [exact Hb|]. split; [simpl; now rewrite Hb|].
  unfold w'. simpl. rewrite filter_network_app. simpl. apply app_nil_r.
Qed.

(** C5. In a turn that reaches the orchestration, the count goes up by one
    when a file path comes back and stays when the result is absent. *)
Theorem success_counter generator image_count w line rest kw w1 r w2 :
  stdin w = line :: rest ->
  str_in (lower (strip line)) exit_keywords = false ->
  strip line <> [] ->
  read_kwargs {| stdin := rest;
                 trace := trace w ++ [EPrint MDashes; EInput QPrompt (Some line)] |}
  = (Ok kw, w1) ->
  generate_and_download E generator (strip line) kw w1 = (Ok r, w2) ->
  loop_body E generator image_count w
  = (Ok (Continue (match r with Some _ => S image_count | None => image_count end)),
     {| stdin := stdin w2;
        trace := trace w2
                 ++ [EPrint (match r with
                             | Some _ => MSuccess (S image_count)
                             | None => MFailed
                             end);
                     ESleep 1] |}).
Proof.
  intros Hin Hexit Hne Hkw Hgd.
  rewrite (loop_body_line E generator image_count w Hin). cbv zeta.
  rewrite Hexit, is_empty_strip_false by assumption.
  rewrite <- app_assoc. simpl app.
  rewrite (bind_ok _ Hkw), (bind_ok _ Hgd).
  destruct r as [p|].
  - assert (Hp : p <> []).
    { revert Hgd. unfold generate_and_download, bind, lift.
      destruct (generate_image_kw E generator (strip line) kw w1) as [[result|] w3];
        [|discriminate].
      destruct (has_images result) as [[|]|]; try discriminate.
      destruct (getitem result (lit "data")) as [data|]; [|discriminate].
      destruct (getitem0 data) as [first|]; [|discriminate].
      destruct (getitem first (lit "url")) as [url|]; [|discriminate].
      apply download_image_path_nonempty. }
    unfold path_truthy. destruct p; [contradiction|]. run.
    rewrite <- !app_assoc. reflexivity.
  - run. rewrite <- !app_assoc. reflexivity.
Qed.

(** C9. An API key that is empty once stripped: [main] prints the error and
    returns; no folder is made, no generator built, nothing sent. *)
Theorem main_requires_api_key w line rest :
  stdin w = line :: rest ->
  strip line = [] ->
  main_setup E w
  = (Ok None,
     {| stdin := rest;
        trace := trace w ++ [EPrint MRule; EPrint MTitle; EPrint MRule;
                             EInput QApiKey (Some line);
                             EPrint MApiKeyRequired] |})
  /\ main E w
     = Some (Ok tt,
             {| stdin := rest;
                trace := trace w ++ [EPrint MRule; EPrint MTitle; EPrint MRule;
                                     EInput QApiKey (Some line);
                                     EPrint MApiKeyRequired] |}).
Proof.
  intros Hin Hempty.
  assert (Hs : main_setup E w
               = (Ok None,
                  {| stdin := rest;
                     trace := trace w ++ [EPrint MRule; EPrint MTitle; EPrint MRule;
                                          EInput QApiKey (Some line);
                                          EPrint MApiKeyRequired] |})).
  { unfold main_setup. run. rewrite Hin. simpl. rewrite Hempty. simpl.
    rewrite <- !app_assoc. reflexivity. }
  split; [exact Hs|]. unfold main, main_fuel. now rewrite Hs.
Qed.
End MainClaims.

(** ** What leaves the orchestration *)

(** An answer whose first image entry has no [url] makes line 119 raise
    [KeyError], outside every [try]. *)
Lemma missing_url_propagates {U : Unicode} (E : env) self prompt kw w kv first rest w1 :
  generate_image_kw E self prompt kw w = (Ok (JObj kv), w1) ->
  lookup (lit "data") kv = Some (JArr (JObj first :: rest)) ->
  lookup (lit "url") first = None ->
  generate_and_download E self prompt kw w
  = (Raise (KeyError (KStr (lit "url"))), w1).
Proof.
  intros Hg Hd Hu. unfold generate_and_download. rewrite (bind_ok _ Hg).
  unfold has_images, truthy, contains, getitem.
  destruct kv; [discriminate|]. rewrite Hd.
  unfold bind, lift. simpl. rewrite Hu. reflexivity.
Qed.

(** C2. The API answers 200 with a body [{"data": [{}]}]: the [KeyError] of
    line 119 leaves [generate_and_download], and with it [main]. *)
Theorem missing_url_escapes :
  fst (generate_and_download urlless_env sample_generator
         (lit "a cat") no_kwargs (start []))
  = Raise (KeyError (KStr (lit "url")))
  /\ option_map fst
       (main urlless_env (start [lit "xai-key"; lit ""; lit "a cat"; lit "n"; lit "quit"]))
     = Some (Raise (KeyError (KStr (lit "url")))).
Proof. split; vm_compute; reflexivity. Qed.

(** With an image list that has a first entry, the orchestration goes by
    what [entry['url']] of line 119 gives: that URL to the Downloader, or the
    exception it raises. *)
Lemma generate_and_download_first_entry {U : Unicode} (E : env)
    self prompt kw w result w1 entry rest :
  generate_image_kw E self prompt kw w = (Ok result, w1) ->
  image_list result = Some (entry :: rest) ->
  generate_and_download E self prompt kw w
  = match getitem entry (lit "url") with
    | Ok url => download_image E self url prompt w1
    | Raise e => (Raise e, w1)
    end.
Proof.
  intros Hg Hl. unfold generate_and_download. rewrite (bind_ok _ Hg).
  unfold image_list in Hl. destruct result as [| | | | | |kv]; try discriminate.
  destruct (lookup (lit "data") kv) as [[| | | | |entries|]|] eqn:Hd;
    try discriminate.
  injection Hl as ->.
  unfold has_images, truthy, contains, getitem at 1 2.
  destruct kv; [discriminate|]. rewrite Hd.
  unfold bind, lift. simpl.
  destruct (getitem entry (lit "url")); reflexivity.
Qed.

(** C1. The answer [{"data": [{}]}] holds an image list with one entry, and
    yet the Downloader is not called: line 119 raises [KeyError] before it,
    nothing is fetched, and "no image URL found" is not printed either. *)
Theorem entry_without_url_not_downloaded :
  let w := start [] in
  let run :=
    generate_and_download urlless_env sample_generator (lit "a cat") no_kwargs w in
  fst (generate_image_kw urlless_env sample_generator (lit "a cat") no_kwargs w)
  = Ok urlless_answer
  /\ image_list urlless_answer = Some [JObj []]
  /\ fst run = Raise (KeyError (KStr (lit "url")))
  /\ gets (trace (snd run)) = []
  /\ ~ In (EPrint MNoImageUrl) (trace (snd run)).
Proof.
  intros w run.
  split; [reflexivity|]. split; [reflexivity|].
  split; [reflexivity|]. split; [reflexivity|].
  intros H. vm_compute in H. intuition discriminate.
Qed.

(** The scenario of the specification: the answer names one image, the GET
    delivers [PNGDATA], and the file is written under the name made from the
    prompt. *)
Example red_fox_in_snow :
  let w := snd (generate_and_download fox_env sample_generator
                  (lit "A red fox in snow") no_kwargs (start [])) in
  fst (generate_and_download fox_env sample_generator
         (lit "A red fox in snow") no_kwargs (start []))
  = Ok (Some (lit "grok_images/20240309_140507_A_red_fox_in_snow.png"))
  /\ In (EWrite (lit "grok_images/20240309_140507_A_red_fox_in_snow.png") png_data)
        (trace w).
Proof. split; vm_compute; [reflexivity | tauto]. Qed.

(** ** The claims at sample inputs *)

Lemma generate_and_download_dispatch_witness :
  let prompt := lit "A red fox in snow" in
  let url := JStr (lit "http://example/img.png") in
  let w := start [] in
  (generate_and_download fox_env sample_generator prompt no_kwargs w
   = download_image fox_env sample_generator url prompt
       (snd (generate_image_kw fox_env sample_generator prompt no_kwargs w))
   /\ gets (trace (snd (generate_and_download fox_env sample_generator prompt no_kwargs w)))
      = gets (trace w) ++ [url])
  /\ (generate_and_download offline_env sample_generator prompt no_kwargs w
      = (Ok None,
         {| stdin := stdin (snd (generate_image_kw offline_env sample_generator prompt no_kwargs w));
            trace := trace (snd (generate_image_kw offline_env sample_generator prompt no_kwargs w))
                     ++ [EPrint MNoImageUrl] |})
      /\ gets (trace (snd (generate_and_download offline_env sample_generator prompt no_kwargs w)))
         = gets (trace w)).
Proof.
  intros prompt url w. split.
  - apply (@generate_and_download_dispatch ascii_tables fox_env sample_generator
             prompt no_kwargs w fox_answer
             (snd (generate_image_kw fox_env sample_generator prompt no_kwargs w))
             eq_refl).
    reflexivity.
  - apply (@generate_and_download_dispatch ascii_tables offline_env sample_generator
             prompt no_kwargs w JNull
             (snd (generate_image_kw offline_env sample_generator prompt no_kwargs w))
             eq_refl).
    reflexivity.
Defined.

Lemma filename_shape_witness :
  lit "  Hello, world!  " <> []
  /\ valid_datetime sample_date
  /\ filename sample_date (lit "  Hello, world!  ")
     = lit "20240309_140507" ++ [UNDERSCORE] ++ lit "Hello_world" ++ lit ".png"
  /\ exists core,
       stripped_of (lit "  Hello world  ") core
       /\ lit "Hello_world" = replace SPACE UNDERSCORE core.
Proof.
  assert (H : lit "  Hello, world!  " <> []) by discriminate.
  assert (Hd : valid_datetime sample_date) by (unfold valid_datetime; simpl; lia).
  split; [exact H|]. split; [exact Hd|].
  destruct (@filename_shape ascii_tables fox_env sample_date _ H Hd)
    as [Hf [_ [_ [_ [Hcore _]]]]].
  split; [rewrite Hf; reflexivity | exact Hcore].
Defined.

Lemma filename_first_50_witness :
  let prompt := lit "a quiet harbour at dawn, fishing boats and gulls, oil on canvas, 4k" in
  let other := lit "a quiet harbour at dawn, fishing boats and gulls, watercolour" in
  (50 < length prompt)%nat
  /\ firstn 50%nat other = firstn 50%nat prompt
  /\ filename sample_date other = filename sample_date prompt.
Proof.
  intros prompt other.
  assert (H1 : (50 < length prompt)%nat) by (vm_compute; lia).
  assert (H2 : firstn 50%nat other = firstn 50%nat prompt) by reflexivity.
  split; [exact H1|]. split; [exact H2|].
  apply (@filename_first_50 ascii_tables sample_date prompt other H1 H2).
Defined.

Lemma punctuation_prompt_downloads_witness :
  let prompt := lit "?!... (*)" in
  let url := JStr (lit "http://example/img.png") in
  prompt <> []
  /\ safe_prompt prompt = []
  /\ fst (download_image fox_env sample_generator url prompt (start []))
     = Ok (Some (lit "grok_images/20240309_140507_.png")).
Proof.
  intros prompt url.
  assert (H1 : prompt <> []) by discriminate.
  assert (H2 : Forall (fun c => isalnum c = false /\ c <> HYPHEN /\ c <> UNDERSCORE)
                      (firstn 50%nat prompt)).
  { repeat constructor; discriminate. }
  destruct (@punctuation_prompt_downloads ascii_tables fox_env sample_generator
              url prompt (start []) H1 H2) as [Hs [_ [_ [_ Hd]]]].
  split; [exact H1|]. split; [exact Hs|].
  apply (Hd (ok_response None png_data)); reflexivity.
Defined.

Lemma exit_keyword_ends_loop_witness :
  str_in (lower (strip (lit " EXIT "))) exit_keywords = true
  /\ loop_body fox_env sample_generator 2%nat (start [lit " EXIT "; lit "a cat"])
     = (Ok Break,
        {| stdin := [lit "a cat"];
           trace := [EPrint MDashes; EInput QPrompt (Some (lit " EXIT "));
                     EPrint (MGoodbye 2)] |}).
Proof.
  assert (H : str_in (lower (strip (lit " EXIT "))) exit_keywords = true)
    by reflexivity.
  split; [exact H|].
  apply (@exit_keyword_ends_loop ascii_tables fox_env sample_generator 2%nat
           (start [lit " EXIT "; lit "a cat"]) (lit " EXIT ") [lit "a cat"] 0%nat
           eq_refl H).
Defined.

Lemma empty_prompt_skipped_witness :
  strip (lit "   ") = []
  /\ loop_body fox_env sample_generator 2%nat (start [lit "   "; lit "quit"])
     = (Ok (Continue 2),
        {| stdin := [lit "quit"];
           trace := [EPrint MDashes; EInput QPrompt (Some (lit "   "));
                     EPrint MPromptEmpty] |}).
Proof.
  assert (H : strip (lit "   ") = []) by reflexivity.
  split; [exact H|].
  apply (@empty_prompt_skipped ascii_tables fox_env sample_generator 2%nat
           (start [lit "   "; lit "quit"]) (lit "   ") [lit "quit"] 0%nat
           eq_refl H).
Defined.

Lemma success_counter_witness :
  fst (loop_body offline_env sample_generator 2%nat (start [lit "a cat"; lit "n"]))
  = Ok (Continue 2)
  /\ fst (loop_body fox_env sample_generator 2%nat (start [lit "a cat"; lit "n"]))
     = Ok (Continue 3).
Proof.
  assert (Hexit : str_in (lower (strip (lit "a cat"))) exit_keywords = false)
    by reflexivity.
  assert (Hne : strip (lit "a cat") <> []) by discriminate.
  set (w0 := {| stdin := [lit "n"];
                trace := trace (start [lit "a cat"; lit "n"])
                         ++ [EPrint MDashes; EInput QPrompt (Some (lit "a cat"))] |}).
  assert (Hkw : read_kwargs w0 = (Ok no_kwargs, snd (read_kwargs w0)))
    by reflexivity.
  assert (Hoff : generate_and_download offline_env sample_generator
                   (strip (lit "a cat")) no_kwargs (snd (read_kwargs w0))
                 = (Ok None,
                    snd (generate_and_download offline_env sample_generator
                           (strip (lit "a cat")) no_kwargs (snd (read_kwargs w0)))))
    by reflexivity.
  assert (Hfox : generate_and_download fox_env sample_generator
                   (strip (lit "a cat")) no_kwargs (snd (read_kwargs w0))
                 = (Ok (Some (lit "grok_images/20240309_140507_a_cat.png")),
                    snd (generate_and_download fox_env sample_generator
                           (strip (lit "a cat")) no_kwargs (snd (read_kwargs w0)))))
    by reflexivity.
  split.
  - rewrite (@success_counter ascii_tables offline_env sample_generator 2%nat
               (start [lit "a cat"; lit "n"]) (lit "a cat") [lit "n"]
               no_kwargs _ None _ eq_refl Hexit Hne Hkw Hoff).
    reflexivity.
  - rewrite (@success_counter ascii_tables fox_env sample_generator 2%nat
               (start [lit "a cat"; lit "n"]) (lit "a cat") [lit "n"]
               no_kwargs _ _ _ eq_refl Hexit Hne Hkw Hfox).
    reflexivity.
Defined.

Lemma main_requires_api_key_witness :
  strip (lit "  ") = []
  /\ main fox_env (start [lit "  "; lit "pictures"])
     = Some (Ok tt,
             {| stdin := [lit "pictures"];
                trace := [EPrint MRule; EPrint MTitle; EPrint MRule;
                          EInput QApiKey (Some (lit "  "));
                          EPrint MApiKeyRequired] |}).
Proof.
  assert (H : strip (lit "  ") = []) by reflexivity.
  split; [exact H|].
  apply (@main_requires_api_key ascii_tables fox_env
           (start [lit "  "; lit "pictures"]) (lit "  ") [lit "pictures"]
           eq_refl H).
Defined.

(** * Further properties of the code *)

(** ** File names *)

Lemma last_is_hd_rev (s : str) (d : char) : last s d = hd d (rev s).
Proof.
  induction s as [|a s IH]; [reflexivity|].
  simpl rev. destruct s as [|b s]; [reflexivity|].
  change (last (a :: b :: s) d) with (last (b :: s) d). rewrite IH.
  destruct (rev (b :: s)) eqn:Hr; [|reflexivity].
  apply (f_equal (@length char)) in Hr. rewrite length_rev in Hr. discriminate.
Qed.

Lemma app_same_length_inv A (a b x y : list A) :
  a ++ x = b ++ y -> length a = length b -> a = b.
Proof.
  revert b. induction a as [|h a IH]; intros [|k b] H Hl; try discriminate;
    [reflexivity|].
  simpl in H. injection H as -> H. f_equal. apply IH; [exact H|].
  simpl in Hl. now injection Hl.
Qed.

Lemma filter_all A (f : A -> bool) (l : list A) :
  forallb f l = true -> filter f l = l.
Proof.
  induction l as [|a l IH]; simpl; [reflexivity|].
  intros H. apply andb_true_iff in H. destruct H as [Ha Hl].
  rewrite Ha, IH by assumption. reflexivity.
Qed.

Lemma strftime_chars (d : datetime) :
  Forall (fun c => is_digit c = true \/ c = UNDERSCORE) (strftime d).
Proof.
  unfold strftime, pad4, pad2. simpl.
  repeat (apply Forall_cons;
          [first [left; apply digit_is_digit | right; reflexivity]|]).
  apply Forall_nil.
Qed.

Lemma digit_not_slash (n : N) : char_eqb (digit n) SLASH = false.
Proof.
  pose proof (digit_is_digit n) as H. destruct (char_eqb (digit n) SLASH) eqn:He;
    [|reflexivity].
  apply char_eqb_eq in He. rewrite He in H. discriminate.
Qed.

Section FilenameFacts.
Context {U : Unicode}.

Lemma lstrip_length (s : str) : (length (lstrip s) <= length s)%nat.
Proof.
  induction s as [|c s IH]; simpl; [auto|].
  destruct (isspace c); simpl; lia.
Qed.

Lemma strip_length (s : str) : (length (strip s) <= length s)%nat.
Proof.
  unfold strip, rstrip. rewrite length_rev.
  eapply Nat.le_trans; [apply lstrip_length|]. rewrite length_rev.
  apply lstrip_length.
Qed.

Lemma lstrip_id (s : str) : isspace (hd SPACE s) = false -> lstrip s = s.
Proof. destruct s as [|c s]; simpl; [reflexivity|]. now intros ->. Qed.

Lemma strip_id (s : str) :
  isspace (hd SPACE s) = false -> isspace (last s SPACE) = false -> strip s = s.
Proof.
  intros Hh Hl. unfold strip, rstrip. rewrite (lstrip_id s Hh).
  rewrite lstrip_id by (now rewrite <- last_is_hd_rev). apply rev_involutive.
Qed.

Lemma safe_prompt_length (prompt : str) : (length (safe_prompt prompt) <= 50)%nat.
Proof.
  unfold safe_prompt, replace. rewrite length_map.
  eapply Nat.le_trans; [apply strip_length|].
  eapply Nat.le_trans; [apply filter_length_le|]. apply firstn_le_length.
Qed.

Lemma safe_prompt_no_slash (prompt : str) : ~ In SLASH (safe_prompt prompt).
Proof.
  intros H. pose proof (safe_prompt_chars prompt) as Hc.
  rewrite Forall_forall in Hc. destruct (Hc _ H) as [Ha | [Hh | Hu]];
    try discriminate.
  rewrite isalnum_ascii in Ha by reflexivity. discriminate.
Qed.

(** X1. Whatever the prompt, the sanitized part has at most 50 characters and
    the file name 20 more: at most 70. *)
Theorem filename_length_bound now prompt :
  (length (safe_prompt prompt) <= 50)%nat
  /\ length (filename now prompt) = (20 + length (safe_prompt prompt))%nat
  /\ (length (filename now prompt) <= 70)%nat.
Proof.
  pose proof (safe_prompt_length prompt) as Hs.
  assert (Hl : length (filename now prompt) = (20 + length (safe_prompt prompt))%nat).
  { unfold filename. rewrite !length_app, strftime_length. simpl. lia. }
  split; [exact Hs|]. split; [exact Hl|]. lia.
Qed.

(** X2. The file name never holds a path separator, so the path the
    Downloader builds is the download folder, one separator unless the folder
    is empty or ends with one, and the file name: the file lands in the
    folder itself whatever the prompt says. *)
Theorem filename_stays_in_folder now prompt folder :
  ~ In SLASH (filename now prompt)
  /\ path_join folder (filename now prompt)
     = folder
       ++ (if is_empty folder || endswith [SLASH] folder then [] else [SLASH])
       ++ filename now prompt.
Proof.
  split.
  - unfold filename. intros H.
    apply (in_app_or (strftime now)) in H. destruct H as [H|H];
      [|apply (in_app_or [UNDERSCORE]) in H; destruct H as [H|H];
        [|apply (in_app_or (safe_prompt prompt)) in H; destruct H as [H|H]]].
    + pose proof (strftime_chars now) as Hc. rewrite Forall_forall in Hc.
      destruct (Hc _ H) as [Hd | Hu]; discriminate.
    + destruct H as [H|[]]. discriminate.
    + now apply safe_prompt_no_slash in H.
    + simpl in H. repeat (destruct H as [H|H]; [discriminate|]). exact H.
  - unfold path_join, filename, strftime, pad4, startswith. simpl firstn.
    cbn [app str_eqb]. rewrite digit_not_slash. cbn [andb].
    destruct folder as [|c folder]; [reflexivity|]. cbn [is_empty orb].
    destruct (endswith [SLASH] (c :: folder)); reflexivity.
Qed.

(** X3. Two downloads get the same file name only in the same second and
    with the same sanitized prompt. *)
Theorem filename_injective now1 now2 prompt1 prompt2 :
  valid_datetime now1 ->
  valid_datetime now2 ->
  (filename now1 prompt1 = filename now2 prompt2
   <-> now1 = now2 /\ safe_prompt prompt1 = safe_prompt prompt2).
Proof.
  intros H1 H2. split.
  - unfold filename. intros H.
    assert (Ht : strftime now1 = strftime now2).
    { apply (app_same_length_inv _ _ _ _ H). now rewrite !strftime_length. }
    split.
    + rewrite <- (strftime_reads_back H1), <- (strftime_reads_back H2).
      now rewrite Ht.
    + rewrite Ht in H. apply app_inv_head in H. apply app_inv_head in H.
      now apply app_inv_tail in H.
  - intros [-> Hs]. unfold filename. now rewrite Hs.
Qed.

(** X4. A prompt of at most 50 kept characters without white space at its
    ends comes out as it is, each space turned into an underscore. *)
Theorem safe_prompt_clean prompt :
  clean_prompt prompt ->
  safe_prompt prompt = replace SPACE UNDERSCORE prompt
  /\ length (safe_prompt prompt) = length prompt.
Proof.
  intros [Hlen [Hk [Hh Hl]]].
  assert (Hs : safe_prompt prompt = replace SPACE UNDERSCORE prompt).
  { unfold safe_prompt. rewrite firstn_all2 by exact Hlen.
    rewrite filter_all by exact Hk. now rewrite strip_id. }
  split; [exact Hs|]. rewrite Hs. unfold replace. apply length_map.
Qed.
End FilenameFacts.

(** ** The components, case by case *)

Lemma writes_app (a b : list event) : writes (a ++ b) = writes a ++ writes b.
Proof. apply flat_map_app. Qed.

Lemma saved_app (a b : list event) : saved (a ++ b) = (saved a + saved b)%nat.
Proof. unfold saved. now rewrite filter_app, length_app. Qed.

Section ComponentFacts.
Context {U : Unicode}.
Variable E : env.

Lemma download_image_cases self url prompt w :
  let filepath :=
    path_join (download_folder self) (filename (clock E (trace w)) prompt) in
  let t := (trace w ++ [EPrint MDownloading]) ++ [EGet url] in
  download_image E self url prompt w
  = match http_get E (trace w ++ [EPrint MDownloading]) url with
    | Raise e =>
        (Ok None, {| stdin := stdin w; trace := t ++ [EPrint (MErrorDownloading e)] |})
    | Ok r =>
        if (Z.leb 400 (status_code r) && Z.ltb (status_code r) 600)%bool then
          (Ok None,
           {| stdin := stdin w;
              trace := t ++ [EPrint (MErrorDownloading (http_error r))] |})
        else
          match fs_write E t filepath (content r) with
          | Some e =>
              (Ok None,
               {| stdin := stdin w;
                  trace := (t ++ [EWrite filepath (content r)])
                           ++ [EPrint (MErrorDownloading e)] |})
          | None =>
              (Ok (Some filepath),
               {| stdin := stdin w;
                  trace := (t ++ [EWrite filepath (content r)])
                           ++ [EPrint (MSaved filepath)] |})
          end
    end.
Proof.
  intros filepath t. subst filepath t. unfold download_image. run.
  cases; reflexivity.
Qed.

Lemma generate_image_cases self prompt model size quality style w :
  let t := (trace w ++ [EPrint (MGenerating prompt)])
           ++ [EPost (base_url self) (headers_of self)
                     (payload_of prompt model size quality style)] in
  let failed (e : exn) : outcome json * world :=
    if is_RequestException e
    then (Ok JNull, {| stdin := stdin w; trace := t ++ generation_error_report e |})
    else (Raise e, {| stdin := stdin w; trace := t |}) in
  generate_image E self prompt model size quality style w
  = match http_post E (trace w ++ [EPrint (MGenerating prompt)]) (base_url self)
            (headers_of self) (payload_of prompt model size quality style) with
    | Raise e => failed e
    | Ok r =>
        if (Z.leb 400 (status_code r) && Z.ltb (status_code r) 600)%bool then
          failed (http_error r)
        else
          match body_json r with
          | Some v => (Ok v, {| stdin := stdin w; trace := t |})
          | None => failed (json_error E)
          end
    end.
Proof.
  intros t failed. subst failed t.
  unfold generate_image, generation_error_report. run.
  cases; try reflexivity; rewrite <- ?app_assoc; reflexivity.
Qed.

(** X5. The Downloader never raises and says what it did: a path comes back
    exactly with one more "image saved" and one write, of that path, as the
    last thing before the message; an absent result comes with no more "image
    saved" and an error message as the last thing printed. *)
Theorem download_image_reports self url prompt w :
  exists r w',
    download_image E self url prompt w = (Ok r, w')
    /\ stdin w' = stdin w
    /\ match r with
       | Some p =>
           saved (trace w') = S (saved (trace w))
           /\ (exists content, writes (trace w') = writes (trace w) ++ [(p, content)])
           /\ last (trace w') (ESleep 0) = EPrint (MSaved p)
       | None =>
           saved (trace w') = saved (trace w)
           /\ exists e, last (trace w') (ESleep 0) = EPrint (MErrorDownloading e)
       end.
Proof.
  rewrite download_image_cases.
  destruct (http_get E _ url) as [r|e].
  - destruct (_ && _)%bool.
    + eexists; eexists; split; [reflexivity|]. split; [reflexivity|]. split.
      * cbn [trace]. unfold saved. rewrite !filter_app, !length_app. simpl. lia.
      * eexists. cbn [trace]. apply last_last.
    + destruct (fs_write E _ _ _) as [e|].
      * eexists; eexists; split; [reflexivity|]. split; [reflexivity|]. split.
        -- cbn [trace]. unfold saved. rewrite !filter_app, !length_app. simpl. lia.
        -- eexists. cbn [trace]. apply last_last.
      * eexists; eexists; split; [reflexivity|]. split; [reflexivity|].
        cbn [trace]. split; [unfold saved; rewrite !filter_app, !length_app; simpl; lia|].
        split; [|apply last_last].
        eexists. rewrite !writes_app. simpl. rewrite !app_nil_r. reflexivity.
  - eexists; eexists; split; [reflexivity|]. split; [reflexivity|]. split.
    + cbn [trace]. unfold saved. rewrite !filter_app, !length_app. simpl. lia.
    + eexists. cbn [trace]. apply last_last.
Qed.

(** X6. When the GET raises or answers with a 4xx or 5xx status, the result
    is absent and no file is opened. *)
Theorem failed_download_writes_nothing self url prompt w :
  (forall r, http_get E (trace w ++ [EPrint MDownloading]) url = Ok r ->
             (Z.leb 400 (status_code r) && Z.ltb (status_code r) 600)%bool = true) ->
  fst (download_image E self url prompt w) = Ok None
  /\ writes (trace (snd (download_image E self url prompt w))) = writes (trace w).
Proof.
  intros H. rewrite download_image_cases.
  destruct (http_get E _ url) as [r|e].
  - rewrite (H r eq_refl). cbn [fst snd trace]. split; [reflexivity|].
    rewrite !writes_app. simpl. now rewrite !app_nil_r.
  - cbn [fst snd trace]. split; [reflexivity|].
    rewrite !writes_app. simpl. now rewrite !app_nil_r.
Qed.

(** X7. When the image arrives but the file cannot be written, the error of
    the file system is caught: the result is absent and the error printed. *)
Theorem download_image_write_error self url prompt w r e :
  let filepath :=
    path_join (download_folder self) (filename (clock E (trace w)) prompt) in
  let t := (trace w ++ [EPrint MDownloading]) ++ [EGet url] in
  http_get E (trace w ++ [EPrint MDownloading]) url = Ok r ->
  (Z.leb 400 (status_code r) && Z.ltb (status_code r) 600)%bool = false ->
  fs_write E t filepath (content r) = Some e ->
  download_image E self url prompt w
  = (Ok None,
     {| stdin := stdin w;
        trace := trace w ++ [EPrint MDownloading; EGet url;
                             EWrite filepath (content r);
                             EPrint (MErrorDownloading e)] |}).
Proof.
  intros filepath t Hg Hs Hw. rewrite download_image_cases.
  rewrite Hg, Hs. fold filepath t. rewrite Hw. unfold t.
  rewrite <- !app_assoc. reflexivity.
Qed.

(** X8. A good answer of the API comes back as it is, with nothing printed
    after the request. *)
Theorem generate_image_success self prompt model size quality style w r v :
  http_post E (trace w ++ [EPrint (MGenerating prompt)]) (base_url self)
            (headers_of self) (payload_of prompt model size quality style) = Ok r ->
  (Z.leb 400 (status_code r) && Z.ltb (status_code r) 600)%bool = false ->
  body_json r = Some v ->
  generate_image E self prompt model size quality style w
  = (Ok v,
     {| stdin := stdin w;
        trace := trace w ++ [EPrint (MGenerating prompt);
                             EPost (base_url self) (headers_of self)
                                   (payload_of prompt model size quality style)] |}).
Proof.
  intros Hp Hs Hb. rewrite generate_image_cases. rewrite Hp, Hs, Hb.
  rewrite <- !app_assoc. reflexivity.
Qed.

(** X9. A 4xx or 5xx status of the API gives an absent result; the error and
    then the text of the response are printed. *)
Theorem generate_image_status_error self prompt model size quality style w r :
  http_post E (trace w ++ [EPrint (MGenerating prompt)]) (base_url self)
            (headers_of self) (payload_of prompt model size quality style) = Ok r ->
  (Z.leb 400 (status_code r) && Z.ltb (status_code r) 600)%bool = true ->
  generate_image E self prompt model size quality style w
  = (Ok JNull,
     {| stdin := stdin w;
        trace := trace w ++ [EPrint (MGenerating prompt);
                             EPost (base_url self) (headers_of self)
                                   (payload_of prompt model size quality style);
                             EPrint (MErrorGenerating (http_error r));
                             EPrint (MResponse (text r))] |}).
Proof.
  intros Hp Hs. rewrite generate_image_cases. rewrite Hp, Hs.
  cbn [is_RequestException http_error generation_error_report].
  rewrite <- !app_assoc. reflexivity.
Qed.

(** X10. A [RequestException] raised by the POST itself gives an absent
    result; the error is printed, and the text of a response only when the
    exception carries one. *)
Theorem generate_image_request_exception self prompt model size quality style w
    detail response_text :
  let e := RequestException detail response_text in
  http_post E (trace w ++ [EPrint (MGenerating prompt)]) (base_url self)
            (headers_of self) (payload_of prompt model size quality style) = Raise e ->
  generate_image E self prompt model size quality style w
  = (Ok JNull,
     {| stdin := stdin w;
        trace := trace w
                 ++ [EPrint (MGenerating prompt);
                     EPost (base_url self) (headers_of self)
                           (payload_of prompt model size quality style);
                     EPrint (MErrorGenerating e)]
                 ++ match response_text with
                    | Some t => [EPrint (MResponse t)]
                    | None => []
                    end |}).
Proof.
  intros e Hp. rewrite generate_image_cases. rewrite Hp. unfold e.
  cbn [is_RequestException generation_error_report].
  destruct response_text; rewrite <- !app_assoc; reflexivity.
Qed.

(** X11. [generate_image] catches [RequestException] only: any other
    exception, raised by the POST or by the reading of a body that is not
    JSON, leaves it as it is, with no error message printed. *)
Theorem generate_image_uncaught self prompt model size quality style w e :
  is_RequestException e = false ->
  (http_post E (trace w ++ [EPrint (MGenerating prompt)]) (base_url self)
             (headers_of self) (payload_of prompt model size quality style) = Raise e
   \/ exists r,
       http_post E (trace w ++ [EPrint (MGenerating prompt)]) (base_url self)
                 (headers_of self) (payload_of prompt model size quality style) = Ok r
       /\ (Z.leb 400 (status_code r) && Z.ltb (status_code r) 600)%bool = false
       /\ body_json r = None
       /\ json_error E = e) ->
  generate_image E self prompt model size quality style w
  = (Raise e,
     {| stdin := stdin w;
        trace := trace w ++ [EPrint (MGenerating prompt);
                             EPost (base_url self) (headers_of self)
                                   (payload_of prompt model size quality style)] |}).
Proof.
  intros He [Hp | [r [Hp [Hs [Hb Hj]]]]]; rewrite generate_image_cases.
  - rewrite Hp, He. rewrite <- !app_assoc. reflexivity.
  - rewrite Hp, Hs, Hb, Hj, He. rewrite <- !app_assoc. reflexivity.
Qed.
End ComponentFacts.

(** ** The orchestration, whatever happens *)

Ltac tidy :=
  simpl; rewrite ?app_nil_r, <- ?app_assoc; simpl; solve [reflexivity | lia].

Section OrchestrationFacts.
Context {U : Unicode}.
Variable E : env.

(** X12. One call of [generate_and_download] posts exactly once, with the
    prompt and the settings given or else their defaults, fetches at most
    once, and reads nothing: there is no second try, whether it returns or
    raises. *)
Theorem generate_and_download_no_retry self prompt kw w :
  let w' := snd (generate_and_download E self prompt kw w) in
  posts (trace w')
  = posts (trace w)
    ++ [(base_url self, headers_of self,
         payload_of prompt
           (default (lit "grok-2-vision-1212") (kw_model kw))
           (default (lit "1024x1024") (kw_size kw))
           (default (lit "medium") (kw_quality kw))
           (default (lit "natural") (kw_style kw)))]
  /\ (length (gets (trace w')) <= S (length (gets (trace w))))%nat
  /\ stdin w' = stdin w.
Proof.
  intros w'. split; [|split].
  3: apply generate_and_download_keeps_stdin.
  all: subst w'; unfold generate_and_download, bind at 1;
    pose proof (generate_image_trace E self prompt
                  (default (lit "grok-2-vision-1212") (kw_model kw))
                  (default (lit "1024x1024") (kw_size kw))
                  (default (lit "medium") (kw_quality kw))
                  (default (lit "natural") (kw_style kw)) w)
      as [rest [Ht [Hg [Hp _]]]];
    fold (generate_image_kw E self prompt kw) in Ht;
    destruct (generate_image_kw E self prompt kw w) as [[result|e] w1];
    cbn [snd] in Ht.
  - unfold bind, lift.
    destruct (has_images result) as [[|]|]; simpl.
    + destruct (getitem result (lit "data")) as [data|]; simpl;
        [|rewrite Ht, !posts_app, Hp; tidy].
      destruct (getitem0 data) as [first|]; simpl;
        [|rewrite Ht, !posts_app, Hp; tidy].
      destruct (getitem first (lit "url")) as [url|]; simpl;
        [|rewrite Ht, !posts_app, Hp; tidy].
      destruct (download_image_trace E self url prompt w1) as [rest' [Hd [_ [Hp' _]]]].
      rewrite Hd, Ht, !posts_app, Hp, Hp'. tidy.
    + unfold print, emit, ret. simpl.
      rewrite Ht, !posts_app, Hp. tidy.
    + rewrite Ht, !posts_app, Hp. tidy.
  - simpl. rewrite Ht, !posts_app, Hp. tidy.
  - assert (H1 : gets (trace w1) = gets (trace w)).
    { rewrite Ht, !gets_app, Hg. tidy. }
    unfold bind, lift.
    destruct (has_images result) as [[|]|]; simpl; [| |rewrite H1; lia].
    + destruct (getitem result (lit "data")) as [data|]; simpl; [|rewrite H1; lia].
      destruct (getitem0 data) as [first|]; simpl; [|rewrite H1; lia].
      destruct (getitem first (lit "url")) as [url|]; simpl; [|rewrite H1; lia].
      rewrite download_image_gets, length_app, H1. simpl. lia.
    + unfold print, emit, ret. simpl. rewrite gets_app, H1. tidy.
  - simpl. rewrite Ht, !gets_app, Hg. tidy.
Qed.

(** X13. The guard [result and ...] of line 118 takes every falsy answer (an
    empty object, list or string, zero, false, null) as one without images. *)
Theorem falsy_result_no_image self prompt kw w result w1 :
  generate_image_kw E self prompt kw w = (Ok result, w1) ->
  truthy result = false ->
  generate_and_download E self prompt kw w
  = (Ok None, {| stdin := stdin w1; trace := trace w1 ++ [EPrint MNoImageUrl] |}).
Proof.
  intros Hg Hf. unfold generate_and_download. rewrite (bind_ok _ Hg).
  unfold has_images. rewrite Hf. reflexivity.
Qed.

(** X14. When [data] holds null, a boolean or a number, [len] of line 118
    raises [TypeError]; it leaves [generate_and_download] before anything is
    fetched or printed. *)
Theorem scalar_data_type_error self prompt kw w kv v w1 :
  generate_image_kw E self prompt kw w = (Ok (JObj kv), w1) ->
  lookup (lit "data") kv = Some v ->
  len v = Raise TypeError ->
  generate_and_download E self prompt kw w = (Raise TypeError, w1).
Proof.
  intros Hg Hd Hl. unfold generate_and_download. rewrite (bind_ok _ Hg).
  unfold has_images, truthy, contains, getitem.
  destruct kv; [discriminate|]. rewrite Hd, Hl. reflexivity.
Qed.
End OrchestrationFacts.

(** ** What is printed as saved *)

Lemma keeps_saved_ret A (a : A) : keeps_saved (ret a).
Proof. intros w. reflexivity. Qed.

Lemma keeps_saved_raise A (e : exn) : keeps_saved (@raise A e).
Proof. intros w. reflexivity. Qed.

Lemma keeps_saved_lift A (o : outcome A) : keeps_saved (lift o).
Proof. intros w. reflexivity. Qed.

Lemma keeps_saved_emit (e : event) : is_saved e = false -> keeps_saved (emit e).
Proof.
  intros H w. unfold emit. cbn [snd trace]. unfold saved.
  rewrite filter_app, length_app. simpl. rewrite H. simpl. lia.
Qed.

Lemma keeps_saved_print (m : message) :
  is_saved (EPrint m) = false -> keeps_saved (print m).
Proof. apply keeps_saved_emit. Qed.

Lemma keeps_saved_sleep n : keeps_saved (sleep n).
Proof. now apply keeps_saved_emit. Qed.

Lemma keeps_saved_input q : keeps_saved (input q).
Proof.
  intros w. unfold input. destruct (stdin w); cbn [snd trace]; unfold saved;
    rewrite filter_app, length_app; simpl; lia.
Qed.

Lemma keeps_saved_bind A B (m : M A) (k : A -> M B) :
  keeps_saved m -> (forall a, keeps_saved (k a)) -> keeps_saved (bind m k).
Proof.
  intros Hm Hk w. unfold bind. specialize (Hm w).
  destruct (m w) as [[a|e] w1]; simpl in *; [|assumption].
  now rewrite Hk.
Qed.

Lemma keeps_saved_try A (m : M A) (h : exn -> M A) :
  keeps_saved m -> (forall e, keeps_saved (h e)) -> keeps_saved (try_except m h).
Proof.
  intros Hm Hh w. unfold try_except. specialize (Hm w).
  destruct (m w) as [[a|e] w1]; simpl in *; [assumption|].
  now rewrite Hh.
Qed.

Lemma keeps_saved_if A (b : bool) (m1 m2 : M A) :
  keeps_saved m1 -> keeps_saved m2 -> keeps_saved (if b then m1 else m2).
Proof. destruct b; auto. Qed.

Lemma keeps_saved_post E url headers payload :
  keeps_saved (requests_post E url headers payload).
Proof.
  intros w. unfold requests_post. cbn [snd trace]. unfold saved.
  rewrite filter_app, length_app. simpl. lia.
Qed.

Lemma keeps_saved_mkdir E path : keeps_saved (mkdir E path).
Proof.
  intros w. unfold mkdir. cbn [snd trace]. unfold saved.
  rewrite filter_app, length_app. simpl. lia.
Qed.

Lemma keeps_saved_raise_for_status r : keeps_saved (raise_for_status r).
Proof.
  unfold raise_for_status. apply keeps_saved_if;
    [apply keeps_saved_raise | apply keeps_saved_ret].
Qed.

Lemma keeps_saved_response_json E r : keeps_saved (response_json E r).
Proof.
  unfold response_json. destruct (body_json r);
    [apply keeps_saved_ret | apply keeps_saved_raise].
Qed.

Create HintDb saved discriminated.
#[local] Hint Resolve keeps_saved_ret keeps_saved_raise keeps_saved_lift
  keeps_saved_sleep keeps_saved_input keeps_saved_bind keeps_saved_try
  keeps_saved_if keeps_saved_post keeps_saved_mkdir
  keeps_saved_raise_for_status keeps_saved_response_json : saved.
#[local] Hint Extern 1 (keeps_saved (print _)) =>
  apply keeps_saved_print; reflexivity : saved.

Section SavedFacts.
Context {U : Unicode}.
Variable E : env.

Lemma keeps_saved_generate_image self prompt model size quality style :
  keeps_saved (generate_image E self prompt model size quality style).
Proof.
  unfold generate_image. apply keeps_saved_try; [auto 10 with saved|].
  intros [d [t|]| | | | | |]; auto 10 with saved.
Qed.

Lemma keeps_saved_read_kwargs : keeps_saved read_kwargs.
Proof. unfold read_kwargs, ask. auto 20 with saved. Qed.

Lemma keeps_saved_main_setup : keeps_saved (main_setup E).
Proof. unfold main_setup, init. auto 30 with saved. Qed.

(** The Downloader prints "image saved" once when it returns a path, and
    not at all otherwise. *)
Lemma download_image_saved self url prompt w :
  saved (trace (snd (download_image E self url prompt w)))
  = (saved (trace w)
     + match fst (download_image E self url prompt w) with
       | Ok (Some _) => 1
       | _ => 0
       end)%nat.
Proof.
  rewrite download_image_cases.
  destruct (http_get E _ url) as [r|e];
    [destruct (_ && _)%bool; [|destruct (fs_write E _ _ _)]|];
    cbn [fst snd trace]; unfold saved; rewrite !filter_app, !length_app;
    simpl; lia.
Qed.

Lemma generate_and_download_saved self prompt kw w :
  saved (trace (snd (generate_and_download E self prompt kw w)))
  = (saved (trace w)
     + match fst (generate_and_download E self prompt kw w) with
       | Ok (Some _) => 1
       | _ => 0
       end)%nat.
Proof.
  pose proof (keeps_saved_generate_image self prompt
                (default (lit "grok-2-vision-1212") (kw_model kw))
                (default (lit "1024x1024") (kw_size kw))
                (default (lit "medium") (kw_quality kw))
                (default (lit "natural") (kw_style kw)) w) as Hg.
  fold (generate_image_kw E self prompt kw) in Hg.
  destruct (generate_and_download E self prompt kw w) as [r w'] eqn:Hgd.
  cbn [fst snd]. revert Hgd. unfold generate_and_download, bind at 1.
  destruct (generate_image_kw E self prompt kw w) as [[result|e] w1];
    cbn [snd] in Hg; [|intros H; inversion H; subst; lia].
  rewrite <- Hg. unfold bind, lift.
  destruct (has_images result) as [[|]|];
    [| |intros H; inversion H; subst; lia].
  - destruct (getitem result (lit "data")) as [data|];
      [|intros H; inversion H; subst; lia].
    destruct (getitem0 data) as [first|]; [|intros H; inversion H; subst; lia].
    destruct (getitem first (lit "url")) as [url|];
      [|intros H; inversion H; subst; lia].
    intros H. pose proof (download_image_saved self url prompt w1) as Hd.
    rewrite H in Hd. exact Hd.
  - unfold print, emit, ret. intros H. inversion H. subst. cbn [trace].
    unfold saved. rewrite filter_app, length_app. simpl. lia.
Qed.
End SavedFacts.

(** ** [main], turn by turn *)

Lemma in_exit_keywords (s : str) :
  In s exit_keywords -> str_in s exit_keywords = true.
Proof.
  intros H. unfold str_in. apply existsb_exists. exists s.
  split; [exact H | now apply str_eqb_eq].
Qed.

Lemma lowercase_letter_source (c : char) :
  97 <= ascii_lower c <= 122 -> is_ascii c = true /\ ascii_isspace c = false.
Proof.
  unfold ascii_lower, is_ascii, ascii_isspace.
  destruct (N.leb 65 c) eqn:H1; destruct (N.leb c 90) eqn:H2; cbn [andb];
    intros [Ha Hb];
    repeat match goal with
           | H : N.leb _ _ = true |- _ => apply N.leb_le in H
           | H : N.leb _ _ = false |- _ => apply N.leb_gt in H
           end;
    (split;
     [apply N.ltb_lt; lia
     |apply orb_false_iff; split; apply andb_false_iff;
      first [left; apply N.leb_gt; lia | right; apply N.leb_gt; lia]]).
Qed.

Section MainFacts.
Context {U : Unicode}.
Variable E : env.

Lemma generate_and_download_path_nonempty self prompt kw w p w' :
  generate_and_download E self prompt kw w = (Ok (Some p), w') -> p <> [].
Proof.
  unfold generate_and_download, bind, lift.
  destruct (generate_image_kw E self prompt kw w) as [[result|] w1]; [|discriminate].
  destruct (has_images result) as [[|]|]; try discriminate.
  destruct (getitem result (lit "data")) as [data|]; [|discriminate].
  destruct (getitem0 data) as [first|]; [|discriminate].
  destruct (getitem first (lit "url")) as [url|]; [|discriminate].
  apply download_image_path_nonempty.
Qed.

(** X15. An answer other than y (in either case) to "use custom settings?"
    reads no further line and leaves every setting at its default. *)
Theorem read_kwargs_default w line rest :
  stdin w = line :: rest ->
  str_eqb (lower (strip line)) (lit "y") = false ->
  read_kwargs w
  = (Ok no_kwargs,
     {| stdin := rest; trace := trace w ++ [EInput QCustom (Some line)] |}).
Proof.
  intros Hin Hn. unfold read_kwargs. unfold bind at 1, input at 1.
  rewrite Hin. cbv beta iota. rewrite Hn. reflexivity.
Qed.

(** X16. After y the three settings are read in the order size, quality,
    style; each is stripped, and a blank one is left out, that is, stays at
    its default; the model is never asked for. *)
Theorem read_kwargs_custom w line size quality style rest :
  stdin w = line :: size :: quality :: style :: rest ->
  lower (strip line) = lit "y" ->
  read_kwargs w
  = (Ok {| kw_model := None; kw_size := setting size;
           kw_quality := setting quality; kw_style := setting style |},
     {| stdin := rest;
        trace := trace w ++ [EInput QCustom (Some line); EInput QSize (Some size);
                             EInput QQuality (Some quality);
                             EInput QStyle (Some style)] |}).
Proof.
  intros Hin Hy. unfold read_kwargs. unfold bind at 1, input at 1.
  rewrite Hin. cbv beta iota. rewrite Hy.
  change (str_eqb (lit "y") (lit "y")) with true. cbv iota.
  unfold ask, bind, input, ret. cbn [stdin trace]. unfold setting.
  rewrite <- !app_assoc. reflexivity.
Qed.

(** X17. With an API key, [main] makes the folder named on the second line,
    stripped, or [grok_images] when that is blank, before anything else, and
    the generator carries the stripped key, that folder and the endpoint. *)
Theorem main_setup_folder w key folder rest :
  let dir := if is_empty (strip folder) then lit "grok_images" else strip folder in
  stdin w = key :: folder :: rest ->
  strip key <> [] ->
  (forall tr, fs_mkdir E tr dir = None) ->
  main_setup E w
  = (Ok (Some {| api_key := strip key; download_folder := dir;
                 base_url := lit "https://x.com/i/grok" |}),
     {| stdin := rest;
        trace := trace w ++ [EPrint MRule; EPrint MTitle; EPrint MRule;
                             EInput QApiKey (Some key); EInput QFolder (Some folder);
                             EMkdir dir; EPrint (MFolderVerified dir);
                             EPrint MRule; EPrint MReady; EPrint MRule;
                             EPrint MOptions; EPrint MOptionSize;
                             EPrint MOptionQuality; EPrint MOptionStyle] |}).
Proof.
  intros dir Hin Hkey Hmk.
  unfold main_setup, init. repeat autounfold with py. cbn [stdin trace].
  rewrite Hin. cbn [stdin trace].
  rewrite is_empty_strip_false by assumption. cbn [stdin trace].
  fold dir. rewrite Hmk. cbn [stdin trace].
  rewrite <- !app_assoc. reflexivity.
Qed.

(** X18. [__init__] has no handler: when the folder cannot be made, the error
    leaves [main] right there, before the folder is reported, the loop is
    entered or anything is sent. *)
Theorem mkdir_failure_ends_main w key folder rest e :
  let dir := if is_empty (strip folder) then lit "grok_images" else strip folder in
  stdin w = key :: folder :: rest ->
  strip key <> [] ->
  (forall tr, fs_mkdir E tr dir = Some e) ->
  main E w
  = Some (Raise e,
          {| stdin := rest;
             trace := trace w ++ [EPrint MRule; EPrint MTitle; EPrint MRule;
                                  EInput QApiKey (Some key);
                                  EInput QFolder (Some folder); EMkdir dir] |}).
Proof.
  intros dir Hin Hkey Hmk. unfold main, main_fuel.
  unfold main_setup, init. repeat autounfold with py. cbn [stdin trace].
  rewrite Hin. cbn [stdin trace].
  rewrite is_empty_strip_false by assumption. cbn [stdin trace].
  fold dir. rewrite Hmk. cbn [stdin trace].
  rewrite <- !app_assoc. reflexivity.
Qed.

(** X19. The end of standard input is not an exit: at the prompt for the
    image, or already at the one for the key, [EOFError] leaves [main], and
    no count is reported. *)
Theorem end_of_input_raises w generator image_count fuel :
  stdin w = [] ->
  main_loop E (S fuel) generator image_count w
  = Some (Raise EOFError,
          {| stdin := [];
             trace := trace w ++ [EPrint MDashes; EInput QPrompt None] |})
  /\ main E w
     = Some (Raise EOFError,
             {| stdin := [];
                trace := trace w ++ [EPrint MRule; EPrint MTitle; EPrint MRule;
                                     EInput QApiKey None] |}).
Proof.
  intros Hin. split.
  - cbn [main_loop]. unfold loop_body.
    unfold bind at 1, print at 1, emit at 1. unfold bind at 1, input at 1.
    cbn [stdin trace]. rewrite Hin. rewrite <- !app_assoc. reflexivity.
  - unfold main, main_fuel, main_setup. repeat autounfold with py.
    cbn [stdin trace]. rewrite Hin. rewrite <- !app_assoc. reflexivity.
Qed.

(** Lower or upper case, each spelling of quit, exit and q in ASCII letters
    passes the test of line 164. *)
Lemma ascii_exit_test line keyword :
  In keyword exit_keywords ->
  map ascii_lower line = keyword ->
  str_in (lower (strip line)) exit_keywords = true.
Proof.
  intros Hin Hmap.
  assert (Hk : Forall (fun k => 97 <= k <= 122) keyword /\ keyword <> []).
  { destruct Hin as [<-|[<-|[<-|[]]]];
      (split; [repeat (apply Forall_cons; [cbv; split; discriminate|]);
               apply Forall_nil | discriminate]). }
  destruct Hk as [Hk Hne]. rewrite <- Hmap in Hk, Hne.
  apply Forall_map in Hk.
  assert (Hl : Forall (fun c => is_ascii c = true /\ ascii_isspace c = false) line).
  { eapply Forall_impl; [|exact Hk]. intros c. apply lowercase_letter_source. }
  rewrite Forall_forall in Hl.
  assert (Hs : strip line = line).
  { destruct line as [|c l]; [contradiction Hne; reflexivity|].
    apply strip_id.
    - cbn [hd]. destruct (Hl c (or_introl eq_refl)) as [Ha Hsp].
      now rewrite isspace_ascii.
    - rewrite last_is_hd_rev.
      destruct (rev (c :: l)) as [|d r] eqn:Hr.
      + apply (f_equal (@length char)) in Hr. rewrite length_rev in Hr.
        discriminate.
      + cbn [hd]. assert (Hd : In d (c :: l)).
        { apply in_rev. rewrite Hr. now left. }
        destruct (Hl d Hd) as [Ha Hsp]. now rewrite isspace_ascii. }
  rewrite Hs, lower_ascii, Hmap; [now apply in_exit_keywords|].
  apply forallb_forall. intros c Hc. now destruct (Hl c Hc).
Qed.

(** X20. Lower or upper case, each spelling of quit, exit and q in ASCII
    letters, typed at the prompt, ends the loop in that turn: the count is
    reported and the loop is left. *)
Theorem ascii_exit_variants line keyword generator image_count w rest fuel :
  In keyword exit_keywords ->
  map ascii_lower line = keyword ->
  stdin w = line :: rest ->
  let w' := {| stdin := rest;
               trace := trace w ++ [EPrint MDashes; EInput QPrompt (Some line);
                                    EPrint (MGoodbye image_count)] |} in
  str_in (lower (strip line)) exit_keywords = true
  /\ loop_body E generator image_count w = (Ok Break, w')
  /\ main_loop E (S fuel) generator image_count w = Some (Ok tt, w').
Proof.
  intros Hin Hmap Hw w'.
  pose proof (ascii_exit_test line Hin Hmap) as Ht.
  pose proof (loop_body_exit E generator image_count w Hw Ht) as Hb.
  split; [exact Ht|]. split; [exact Hb|].
  cbn [main_loop]. now rewrite Hb.
Qed.
End MainFacts.

(** ** The count that [main] reports *)

Section Counting.
Context {U : Unicode}.
Variable E : env.

(** A turn keeps the count in step with the "image saved" messages, and a
    turn that breaks ends on the report of the count. *)
Lemma loop_body_counts generator image_count w ctl w' :
  loop_body E generator image_count w = (Ok ctl, w') ->
  match ctl with
  | Break =>
      exists tr, trace w' = tr ++ [EPrint (MGoodbye image_count)]
                 /\ saved (trace w') = saved (trace w)
  | Continue image_count' =>
      (image_count' + saved (trace w) = image_count + saved (trace w'))%nat
  end.
Proof.
  destruct (stdin w) as [|line rest] eqn:Hin.
  - intros H. pose proof (loop_body_eof E generator image_count w Hin) as He.
    rewrite H in He. discriminate.
  - rewrite (loop_body_line E generator image_count w Hin). cbv zeta.
    set (w0 := {| stdin := rest; trace := _ |}).
    assert (H0 : saved (trace w0) = saved (trace w)).
    { unfold w0. cbn [trace]. unfold saved.
      rewrite !filter_app, !length_app. simpl. lia. }
    destruct (str_in (lower (strip line)) exit_keywords).
    { unfold bind, print, emit, ret. intros H. inversion H. subst.
      eexists. split; [reflexivity|]. cbn [trace]. unfold saved in *.
      rewrite !filter_app, !length_app. simpl. lia. }
    destruct (is_empty (strip line)).
    { unfold bind, print, emit, ret. intros H. inversion H. subst.
      cbn [trace]. unfold saved in *. rewrite !filter_app, !length_app. simpl. lia. }
    unfold bind at 1.
    pose proof (keeps_saved_read_kwargs w0) as Hk.
    destruct (read_kwargs w0) as [[kw|e] w1]; [|discriminate]. cbn [snd] in Hk.
    unfold bind at 1.
    pose proof (generate_and_download_saved E generator (strip line) kw w1) as Hg.
    destruct (generate_and_download E generator (strip line) kw w1)
      as [[r|e] w2] eqn:Hgd; [|discriminate]. cbn [fst snd] in Hg.
    destruct r as [p|].
    + apply generate_and_download_path_nonempty in Hgd.
      unfold path_truthy. destruct p; [contradiction|]. cbn [is_empty negb].
      unfold bind, print, sleep, emit, ret. intros H. inversion H. subst.
      cbn [trace]. unfold saved in *. rewrite !filter_app, !length_app. simpl. lia.
    + cbn [path_truthy].
      unfold bind, print, sleep, emit, ret. intros H. inversion H. subst.
      cbn [trace]. unfold saved in *. rewrite !filter_app, !length_app. simpl. lia.
Qed.

Lemma main_loop_counts fuel generator image_count w w' :
  main_loop E fuel generator image_count w = Some (Ok tt, w') ->
  exists image_count' tr,
    trace w' = tr ++ [EPrint (MGoodbye image_count')]
    /\ (image_count' + saved (trace w) = image_count + saved (trace w'))%nat.
Proof.
  revert image_count w. induction fuel as [|fuel IH]; intros c w; [discriminate|].
  cbn [main_loop].
  destruct (loop_body E generator c w) as [[[|c']|e] w1] eqn:Hb.
  - intros H. inversion H. subst. apply loop_body_counts in Hb.
    destruct Hb as [tr [Ht Hs]]. exists c, tr. split; [exact Ht | lia].
  - intros H. apply IH in H. destruct H as [n [tr [Ht Hs]]].
    apply loop_body_counts in Hb. exists n, tr. split; [exact Ht | lia].
  - discriminate.
Qed.

Lemma main_setup_early w w1 :
  main_setup E w = (Ok None, w1) ->
  exists tr, trace w1 = tr ++ [EPrint MApiKeyRequired].
Proof.
  unfold main_setup, init. repeat autounfold with py. cbn [stdin trace].
  destruct (stdin w) as [|key rest]; [discriminate|]. cbn [stdin trace].
  destruct (is_empty (strip key)).
  - intros H. inversion H. eexists. reflexivity.
  - destruct rest as [|folder rest]; [discriminate|]. cbn [stdin trace].
    destruct (fs_mkdir E _ _); discriminate.
Qed.

(** X21. When [main] ends without an exception, the last thing printed is
    either the complaint about the missing key, with nothing saved, or the
    report of a count, and that count is the number of "image saved" messages
    of the run. *)
Theorem reported_count_is_saved_count w w' :
  main E w = Some (Ok tt, w') ->
  (exists tr, trace w' = tr ++ [EPrint MApiKeyRequired]
              /\ saved (trace w') = saved (trace w))
  \/ (exists tr image_count,
         trace w' = tr ++ [EPrint (MGoodbye image_count)]
         /\ saved (trace w') = (saved (trace w) + image_count)%nat).
Proof.
  unfold main, main_fuel.
  pose proof (keeps_saved_main_setup E w) as Hs.
  destruct (main_setup E w) as [[[g|]|e] w1] eqn:Hm; cbn [snd] in Hs.
  - intros H. apply main_loop_counts in H. destruct H as [n [tr [Ht Hc]]].
    right. exists tr, n. split; [exact Ht | lia].
  - intros H. inversion H. subst. left.
    destruct (main_setup_early w Hm) as [tr Ht]. exists tr. now split.
  - discriminate.
Qed.

(** X22. The loop takes at most one turn more than there are lines left to
    read, so [main] ends on every input: by an exit keyword, the missing key,
    or an exception. *)
Theorem main_always_ends :
  (forall fuel generator image_count w,
      (length (stdin w) < fuel)%nat ->
      exists r, main_loop E fuel generator image_count w = Some r)
  /\ (forall w, exists r, main E w = Some r).
Proof.
  split.
  - intros fuel generator image_count w. apply main_loop_total.
  - apply main_total.
Qed.
End Counting.

(** ** The further properties at sample inputs *)

Lemma filename_injective_witness :
  let later := {| year := 2024; month := 3; day := 9;
                  hour := 14; minute := 5; second := 8 |} in
  valid_datetime sample_date /\ valid_datetime later
  /\ filename sample_date (lit "a cat") <> filename later (lit "a cat").
Proof.
  intros later.
  assert (H1 : valid_datetime sample_date) by (unfold valid_datetime; simpl; lia).
  assert (H2 : valid_datetime later) by (unfold valid_datetime; simpl; lia).
  split; [exact H1|]. split; [exact H2|].
  intros H.
  apply (@filename_injective ascii_tables sample_date later
           (lit "a cat") (lit "a cat") H1 H2) in H.
  destruct H as [H _]. discriminate.
Defined.

Lemma safe_prompt_clean_witness :
  clean_prompt (lit "A red fox in snow")
  /\ safe_prompt (lit "A red fox in snow") = lit "A_red_fox_in_snow".
Proof.
  assert (H : clean_prompt (lit "A red fox in snow")).
  { unfold clean_prompt. repeat split; try reflexivity. vm_compute. lia. }
  split; [exact H|].
  destruct (@safe_prompt_clean ascii_tables (lit "A red fox in snow") H) as [Hs _].
  rewrite Hs. reflexivity.
Defined.

Lemma failed_download_writes_nothing_witness :
  let url := JStr (lit "http://example/img.png") in
  fst (download_image server_error_env sample_generator url (lit "a cat") (start []))
  = Ok None
  /\ writes (trace (snd (download_image server_error_env sample_generator url
                           (lit "a cat") (start [])))) = [].
Proof.
  intros url.
  apply (@failed_download_writes_nothing ascii_tables server_error_env
           sample_generator url (lit "a cat") (start [])).
  intros r Hr. injection Hr as <-. reflexivity.
Defined.

Lemma download_image_write_error_witness :
  let url := JStr (lit "http://example/img.png") in
  download_image readonly_env sample_generator url (lit "a cat") (start [])
  = (Ok None,
     {| stdin := [];
        trace := [EPrint MDownloading; EGet url;
                  EWrite (lit "grok_images/20240309_140507_a_cat.png") png_data;
                  EPrint (MErrorDownloading (OSError (lit "Permission denied")))] |}).
Proof.
  intros url.
  apply (@download_image_write_error ascii_tables readonly_env sample_generator
           url (lit "a cat") (start []) (ok_response None png_data)
           (OSError (lit "Permission denied")) eq_refl eq_refl eq_refl).
Defined.

Lemma generate_image_success_witness :
  fst (generate_image fox_env sample_generator (lit "a cat") (lit "grok-2-vision-1212")
         (lit "1024x1024") (lit "medium") (lit "natural") (start []))
  = Ok fox_answer.
Proof.
  rewrite (@generate_image_success fox_env sample_generator (lit "a cat")
             (lit "grok-2-vision-1212") (lit "1024x1024") (lit "medium")
             (lit "natural") (start []) (ok_response (Some fox_answer) []) fox_answer
             eq_refl eq_refl eq_refl).
  reflexivity.
Defined.

Lemma generate_image_status_error_witness :
  let w := snd (generate_image server_error_env sample_generator (lit "a cat")
                  (lit "grok-2-vision-1212") (lit "1024x1024") (lit "medium")
                  (lit "natural") (start [])) in
  fst (generate_image server_error_env sample_generator (lit "a cat")
         (lit "grok-2-vision-1212") (lit "1024x1024") (lit "medium")
         (lit "natural") (start []))
  = Ok JNull
  /\ last (trace w) (ESleep 0) = EPrint (MResponse (lit "internal error")).
Proof.
  rewrite (@generate_image_status_error server_error_env sample_generator
             (lit "a cat") (lit "grok-2-vision-1212") (lit "1024x1024")
             (lit "medium") (lit "natural") (start [])
             (status_response 500 (lit "internal error")) eq_refl eq_refl).
  split; reflexivity.
Defined.

Lemma generate_image_request_exception_witness :
  generate_image offline_env sample_generator (lit "a cat")
    (lit "grok-2-vision-1212") (lit "1024x1024") (lit "medium") (lit "natural")
    (start [])
  = (Ok JNull,
     {| stdin := [];
        trace := [EPrint (MGenerating (lit "a cat"));
                  EPost (lit "https://x.com/i/grok") (headers_of sample_generator)
                        (payload_of (lit "a cat") (lit "grok-2-vision-1212")
                                    (lit "1024x1024") (lit "medium") (lit "natural"));
                  EPrint (MErrorGenerating
                            (RequestException (lit "ConnectionError") None))] |}).
Proof.
  apply (@generate_image_request_exception offline_env sample_generator
           (lit "a cat") (lit "grok-2-vision-1212") (lit "1024x1024")
           (lit "medium") (lit "natural") (start [])
           (lit "ConnectionError") None eq_refl).
Defined.

Lemma generate_image_uncaught_witness :
  fst (generate_image legacy_env sample_generator (lit "a cat")
         (lit "grok-2-vision-1212") (lit "1024x1024") (lit "medium")
         (lit "natural") (start []))
  = Raise (OtherException (lit "ValueError")).
Proof.
  rewrite (@generate_image_uncaught legacy_env sample_generator (lit "a cat")
             (lit "grok-2-vision-1212") (lit "1024x1024") (lit "medium")
             (lit "natural") (start []) (OtherException (lit "ValueError")) eq_refl).
  - reflexivity.
  - right. exists (ok_response None []). repeat split.
Defined.

Lemma falsy_result_no_image_witness :
  let env := fixed_env (Ok (ok_response (Some (JArr [])) []))
                       (Ok (ok_response None png_data)) in
  fst (generate_and_download env sample_generator (lit "a cat") no_kwargs (start []))
  = Ok None.
Proof.
  intros env.
  rewrite (@falsy_result_no_image ascii_tables env sample_generator (lit "a cat")
             no_kwargs (start []) (JArr [])
             (snd (generate_image_kw env sample_generator (lit "a cat") no_kwargs
                     (start [])))
             eq_refl eq_refl).
  reflexivity.
Defined.

Lemma scalar_data_type_error_witness :
  let env := fixed_env (Ok (ok_response (Some (JObj [(lit "data", JNull)])) []))
                       (Ok (ok_response None png_data)) in
  fst (generate_and_download env sample_generator (lit "a cat") no_kwargs (start []))
  = Raise TypeError.
Proof.
  intros env.
  rewrite (@scalar_data_type_error ascii_tables env sample_generator (lit "a cat")
             no_kwargs (start []) [(lit "data", JNull)] JNull
             (snd (generate_image_kw env sample_generator (lit "a cat") no_kwargs
                     (start [])))
             eq_refl eq_refl eq_refl).
  reflexivity.
Defined.

Lemma read_kwargs_default_witness :
  read_kwargs (start [lit ""; lit "quit"])
  = (Ok no_kwargs,
     {| stdin := [lit "quit"]; trace := [EInput QCustom (Some (lit ""))] |}).
Proof.
  apply (@read_kwargs_default ascii_tables (start [lit ""; lit "quit"])
           (lit "") [lit "quit"] eq_refl eq_refl).
Defined.

Lemma read_kwargs_custom_witness :
  fst (read_kwargs (start [lit " Y "; lit "512x512"; lit "  "; lit "vivid "]))
  = Ok {| kw_model := None; kw_size := Some (lit "512x512");
          kw_quality := None; kw_style := Some (lit "vivid") |}.
Proof.
  rewrite (@read_kwargs_custom ascii_tables
             (start [lit " Y "; lit "512x512"; lit "  "; lit "vivid "])
             (lit " Y ") (lit "512x512") (lit "  ") (lit "vivid ") []
             eq_refl eq_refl).
  reflexivity.
Defined.

Lemma main_setup_folder_witness :
  fst (main_setup fox_env (start [lit " xai-key "; lit ""; lit "quit"]))
  = Ok (Some sample_generator)
  /\ fst (main_setup fox_env (start [lit "xai-key"; lit " art "; lit "quit"]))
     = Ok (Some {| api_key := lit "xai-key"; download_folder := lit "art";
                   base_url := lit "https://x.com/i/grok" |}).
Proof.
  split.
  - rewrite (@main_setup_folder ascii_tables fox_env
               (start [lit " xai-key "; lit ""; lit "quit"])
               (lit " xai-key ") (lit "") [lit "quit"] eq_refl);
      [reflexivity | discriminate | reflexivity].
  - rewrite (@main_setup_folder ascii_tables fox_env
               (start [lit "xai-key"; lit " art "; lit "quit"])
               (lit "xai-key") (lit " art ") [lit "quit"] eq_refl);
      [reflexivity | discriminate | reflexivity].
Defined.

Lemma mkdir_failure_ends_main_witness :
  option_map fst (main readonly_env (start [lit "xai-key"; lit "art"; lit "a cat"]))
  = Some (Raise (OSError (lit "Permission denied"))).
Proof.
  rewrite (@mkdir_failure_ends_main ascii_tables readonly_env
             (start [lit "xai-key"; lit "art"; lit "a cat"])
             (lit "xai-key") (lit "art") [lit "a cat"]
             (OSError (lit "Permission denied")) eq_refl);
    [reflexivity | discriminate | reflexivity].
Defined.

Lemma end_of_input_raises_witness :
  option_map fst (main_loop fox_env 1 sample_generator 2 (start []))
  = Some (Raise EOFError)
  /\ option_map fst (main fox_env (start [])) = Some (Raise EOFError).
Proof.
  destruct (@end_of_input_raises ascii_tables fox_env (start []) sample_generator
              2%nat 0%nat eq_refl) as [H1 H2].
  rewrite H1, H2. split; reflexivity.
Defined.

Lemma ascii_exit_variants_witness :
  In (lit "quit") exit_keywords
  /\ map ascii_lower (lit "QuIt") = lit "quit"
  /\ str_in (lower (strip (lit "QuIt"))) exit_keywords = true
  /\ main_loop fox_env 1 sample_generator 2 (start [lit "QuIt"; lit "a cat"])
     = Some (Ok tt,
             {| stdin := [lit "a cat"];
                trace := [EPrint MDashes; EInput QPrompt (Some (lit "QuIt"));
                          EPrint (MGoodbye 2)] |}).
Proof.
  assert (H1 : In (lit "quit") exit_keywords) by (left; reflexivity).
  assert (H2 : map ascii_lower (lit "QuIt") = lit "quit") by reflexivity.
  split; [exact H1|]. split; [exact H2|].
  destruct (@ascii_exit_variants ascii_tables fox_env (lit "QuIt") (lit "quit")
              sample_generator 2%nat (start [lit "QuIt"; lit "a cat"])
              [lit "a cat"] 0%nat H1 H2 eq_refl) as [Ht [_ Hm]].
  split; [exact Ht | exact Hm].
Defined.

Lemma reported_count_is_saved_count_witness :
  let lines := [lit "xai-key"; lit ""; lit "a cat"; lit "n"; lit "!!"; lit "n"; lit "q"] in
  exists w tr,
    main fox_env (start lines) = Some (Ok tt, w)
    /\ trace w = tr ++ [EPrint (MGoodbye 2)]
    /\ saved (trace w) = 2%nat.
Proof.
  intros lines.
  destruct (main fox_env (start lines)) as [[[[]|e] w]|] eqn:Hm;
    try (vm_compute in Hm; discriminate).
  destruct (@reported_count_is_saved_count ascii_tables fox_env (start lines) w Hm)
    as [[tr [Ht Hs]] | [tr [n [Ht Hs]]]].
  - exfalso. vm_compute in Hm. injection Hm as <-. vm_compute in Hs. discriminate.
  - assert (Hn : saved (trace w) = 2%nat).
    { vm_compute in Hm. injection Hm as <-. reflexivity. }
    exists w, tr. split; [reflexivity|]. split; [|exact Hn].
    rewrite Hn in Hs. simpl in Hs. subst n. exact Ht.
Defined.
